(** * Todolist backend ([Backend/main.py]): intent dispatch, store access and
      the due-reminder sweep

    A shallow embedding of the request handlers of [Backend/main.py].

    - Python values that travel through the program (the decoded HTTP body of
      the capability, the action and its arguments, the replies) are JSON
      values, type [json].  Text is ASCII text ([string]); Python integers are
      unbounded ([Z]).  A float is carried as the rational it denotes together
      with the text Python prints for it.
    - A Python exception is a value of [exn]; code that may raise returns a
      [result]; code that also touches the store or the network runs in the
      monad [M], which threads the [world].
    - The document store (MongoDB through motor) is modelled by two lists of
      records in natural order, a counter for the ids the store assigns, and a
      log of the operations issued.  The driver encodes a document before it
      sends it: integers must fit 64 bits and keys must not hold a null
      character ([encoding_error]).  Limits on the size and the nesting of a
      document are not modelled.
    - The HTTP call of the language-model capability, the wall clock and the
      part of the store's regular-expression engine that lies outside the
      modelled fragment are inputs ([environment], [now]).  [now] is a
      reading of the clock in milliseconds.
    - Requests are served one after the other ([serve]).
    - [json.dumps] followed by [json.loads] is the identity on decoded JSON
      values, so the string that [gemini_tool_call] hands to [chat] is
      represented by the value it encodes.
    - What the program prints to standard output is not modelled; printing
      is taken to succeed.
    - [chat] and [get_tasks] return JSON values, which the framework sends as
      they are.  [get_due_reminders] returns documents of the store; the
      endpoint [api_due_reminders] is that handler followed by the framework's
      encoding of what it returned. *)

From Stdlib Require Import ZArith Ascii String DecimalString.
From stdpp Require Import gmap strings list fin_maps.

Set Warnings "-register-all".
Open Scope string_scope.
Open Scope Z_scope.

(** ** Python values *)

Inductive pyfloat :=
| Finite (num : Z) (den : positive) (repr : string)
| Infinite (negative : bool)
| NaN.

Inductive json :=
| JNull
| JBool (b : bool)
| JInt (z : Z)
| JFloat (f : pyfloat)
| JStr (s : string)
| JArr (l : list json)
| JObj (m : list (string * json)).

(** Exceptions of the Python run time and of the libraries the program calls. *)
Inductive exn :=
| KeyError (key : string)
| IndexError
| TypeError
| ValueError
| AttributeError
| OverflowError
| JSONDecodeError
| TransportError
| OperationFailure
| InvalidDocument.

Inductive result (A : Type) :=
| Ok (a : A)
| Raise (e : exn).
Arguments Ok {A} a.
Arguments Raise {A} e.

#[global] Instance result_ret : MRet result := fun _ a => Ok a.
#[global] Instance result_bind : MBind result := fun _ _ f r =>
  match r with
  | Ok a => f a
  | Raise e => Raise e
  end.

(** ** Text *)

Fixpoint prefix_of (p s : string) : bool :=
  match p, s with
  | EmptyString, _ => true
  | String a p', String b s' => bool_decide (a = b) && prefix_of p' s'
  | String _ _, EmptyString => false
  end.

(** [needle in hay] on two [str] values. *)
Fixpoint contains (needle hay : string) : bool :=
  prefix_of needle hay ||
  match hay with
  | EmptyString => false
  | String _ hay' => contains needle hay'
  end.

Fixpoint join (sep : string) (l : list string) : string :=
  match l with
  | [] => ""
  | [x] => x
  | x :: l' => x +:+ sep +:+ join sep l'
  end.

Definition decimal (z : Z) : string := NilZero.string_of_int (Z.to_int z).

(** ** Dictionaries decoded from JSON: keys are strings, kept in order *)

Fixpoint obj_lookup (k : string) (m : list (string * json)) : option json :=
  match m with
  | [] => None
  | (k', v) :: m' => if bool_decide (k' = k) then Some v else obj_lookup k m'
  end.

Definition is_str (s : string) (v : json) : bool :=
  match v with
  | JStr s' => bool_decide (s' = s)
  | _ => false
  end.

(** ** Built-in operations, as they behave on decoded JSON *)

(** [k in v] for a string [k]. *)
Definition py_in (k : string) (v : json) : result bool :=
  match v with
  | JObj m => Ok (bool_decide (is_Some (obj_lookup k m)))
  | JArr l => Ok (existsb (is_str k) l)
  | JStr s => Ok (contains k s)
  | _ => Raise TypeError
  end.

(** [v[k]] for a string [k]. *)
Definition py_getitem (v : json) (k : string) : result json :=
  match v with
  | JObj m => match obj_lookup k m with
              | Some x => Ok x
              | None => Raise (KeyError k)
              end
  | _ => Raise TypeError
  end.

(** [v[i]] for an integer literal [i >= 0]. *)
Definition py_getitem_index (v : json) (i : nat) : result json :=
  match v with
  | JArr l => match l !! i with
              | Some x => Ok x
              | None => Raise IndexError
              end
  | JStr s => match String.get i s with
              | Some c => Ok (JStr (String c ""))
              | None => Raise IndexError
              end
  | JObj _ => Raise (KeyError (decimal (Z.of_nat i)))
  | _ => Raise TypeError
  end.

(** [v.get(k, default)]: only dictionaries have the method. *)
Definition py_get (v : json) (k : string) (dflt : json) : result json :=
  match v with
  | JObj m => Ok (default dflt (obj_lookup k m))
  | _ => Raise AttributeError
  end.

(** ** [str()] and [repr()] *)

Definition hex_digit (n : N) : ascii :=
  ascii_of_N (if (n <? 10)%N then 48 + n else 87 + n)%N.

Definition hex_escape (c : ascii) : string :=
  let n := N_of_ascii c in
  String "\" (String "x" (String (hex_digit (n / 16)) (String (hex_digit (n mod 16)) ""))).

(** One character inside a [repr] whose delimiter is [quote]. *)
Definition repr_char (quote c : ascii) : string :=
  let n := N_of_ascii c in
  if bool_decide (c = quote) || bool_decide (c = "\"%char) then String "\" (String c "")
  else if (n =? 9)%N then "\t"
  else if (n =? 10)%N then "\n"
  else if (n =? 13)%N then "\r"
  else if (n <? 32)%N || (n =? 127)%N then hex_escape c
  else String c "".

Fixpoint repr_chars (quote : ascii) (s : string) : string :=
  match s with
  | EmptyString => ""
  | String c s' => repr_char quote c +:+ repr_chars quote s'
  end.

(** [repr] of a [str]: double quotes only when the text has a single quote and
    no double quote. *)
Definition str_repr (s : string) : string :=
  let quote := if contains "'" s && negb (contains (String "034" "") s)
               then "034"%char else "'"%char in
  String quote (repr_chars quote s +:+ String quote "").

Definition float_repr (f : pyfloat) : string :=
  match f with
  | Finite _ _ r => r
  | Infinite false => "inf"
  | Infinite true => "-inf"
  | NaN => "nan"
  end.

Fixpoint py_repr (v : json) : string :=
  match v with
  | JNull => "None"
  | JBool true => "True"
  | JBool false => "False"
  | JInt z => decimal z
  | JFloat f => float_repr f
  | JStr s => str_repr s
  | JArr l => "[" +:+ join ", " (map py_repr l) +:+ "]"
  | JObj m =>
      "{" +:+ join ", " (map (fun kv => str_repr (fst kv) +:+ ": " +:+ py_repr (snd kv)) m)
          +:+ "}"
  end.

(** What an f-string field [{v}] prints. *)
Definition py_str (v : json) : string :=
  match v with
  | JStr s => s
  | _ => py_repr v
  end.

(** ** [int()] *)

(** The characters that [int()] skips around a literal: space, tab, line feed,
    vertical tab, form feed and carriage return. *)
Definition is_space (c : ascii) : bool :=
  let n := N_of_ascii c in
  ((9 <=? n) && (n <=? 13) || (n =? 32))%N.

Fixpoint lstrip (s : string) : string :=
  match s with
  | EmptyString => ""
  | String c s' => if is_space c then lstrip s' else s
  end.

Definition strip (s : string) : string :=
  String.rev (lstrip (String.rev (lstrip s))).

Definition digit_val (c : ascii) : option Z :=
  let n := Z.of_N (N_of_ascii c) in
  if ((48 <=? n) && (n <=? 57))%Z then Some (n - 48) else None.

(** Decimal digits, single underscores allowed between two digits.  Returns the
    value and the number of digits read. *)
Fixpoint int_digits (acc : Z) (count : N) (after_digit : bool) (s : string)
  : option (Z * N) :=
  match s with
  | EmptyString => if after_digit then Some (acc, count) else None
  | String c s' =>
      match digit_val c with
      | Some d => int_digits (10 * acc + d) (count + 1)%N true s'
      | None =>
          if bool_decide (c = "_"%char) && after_digit
          then int_digits acc count false s'
          else None
      end
  end.

(** The interpreter's default limit on the digits of a decimal literal. *)
Definition int_max_str_digits : N := 4300.

Definition int_of_str (s : string) : result Z :=
  let t := strip s in
  let '(negative, body) :=
    match t with
    | String "-" r => (true, r)
    | String "+" r => (false, r)
    | _ => (false, t)
    end in
  match int_digits 0 0%N false body with
  | Some (z, count) =>
      if (int_max_str_digits <? count)%N then Raise ValueError
      else Ok (if negative then - z else z)
  | None => Raise ValueError
  end.

(** [int(v)]: integers and booleans as they are, floats truncated towards
    zero, text parsed as a decimal literal; anything else is a type error. *)
Definition py_int (v : json) : result Z :=
  match v with
  | JInt z => Ok z
  | JBool b => Ok (if b then 1 else 0)
  | JFloat (Finite n d _) => Ok (Z.quot n (Z.pos d))
  | JFloat (Infinite _) => Raise OverflowError
  | JFloat NaN => Raise ValueError
  | JStr s => int_of_str s
  | JNull | JArr _ | JObj _ => Raise TypeError
  end.

(** ** The store's regular expressions

    [delete_one] is called with the filter [{"$regex": pattern, "$options": "i"}]:
    the store compiles [pattern] as a Perl-compatible regular expression and
    searches each title for a match, ignoring case.  The fragment modelled here
    is the regular core: literal characters, [.], [\] before a character that is
    not a letter or digit, grouping, [|], and the quantifiers [*], [+], [?].
    Everything else ([compiled] value [Beyond]) is left to the environment. *)

Inductive regex :=
| Empty
| Eps
| Chr (c : ascii)
| Dot
| Cat (r1 r2 : regex)
| Alt (r1 r2 : regex)
| Star (r : regex).

Inductive compiled :=
| Pattern (r : regex)
| Invalid
| Beyond.

Definition lower (c : ascii) : ascii :=
  let n := N_of_ascii c in
  if ((65 <=? n) && (n <=? 90))%N then ascii_of_N (n + 32) else c.

Definition is_alnum (c : ascii) : bool :=
  let n := N_of_ascii c in
  ((48 <=? n) && (n <=? 57) || (65 <=? n) && (n <=? 90) || (97 <=? n) && (n <=? 122))%N.

Definition newline : ascii := "010"%char.

Fixpoint nullable (r : regex) : bool :=
  match r with
  | Empty | Chr _ | Dot => false
  | Eps | Star _ => true
  | Cat r1 r2 => nullable r1 && nullable r2
  | Alt r1 r2 => nullable r1 || nullable r2
  end.

(** What remains of [r] after it has read [c]. *)
Fixpoint deriv (c : ascii) (r : regex) : regex :=
  match r with
  | Empty | Eps => Empty
  | Chr a => if bool_decide (lower a = lower c) then Eps else Empty
  | Dot => if bool_decide (c = newline) then Empty else Eps
  | Cat r1 r2 =>
      if nullable r1 then Alt (Cat (deriv c r1) r2) (deriv c r2)
      else Cat (deriv c r1) r2
  | Alt r1 r2 => Alt (deriv c r1) (deriv c r2)
  | Star r1 => Cat (deriv c r1) (Star r1)
  end.

(** [r] matches some prefix of [s]. *)
Fixpoint match_here (r : regex) (s : string) : bool :=
  nullable r ||
  match s with
  | EmptyString => false
  | String c s' => match_here (deriv c r) s'
  end.

(** [r] matches somewhere in [s] (the pattern is not anchored). *)
Fixpoint search (r : regex) (s : string) : bool :=
  match_here r s ||
  match s with
  | EmptyString => false
  | String _ s' => search r s'
  end.

(** *** Compiling a pattern *)

(** A group under construction: the alternatives closed so far and the atoms of
    the current alternative, both latest first. *)
Record frame := Frame { alts : list regex; atoms : list regex }.

Record pstate := PState {
  outer : list frame;      (* the enclosing groups, innermost first *)
  cur : frame;
  escaped : bool;          (* the previous character was an unescaped [\] *)
  opened : bool;           (* the previous character opened a group *)
  quantified : bool        (* the previous character was a quantifier *)
}.

Definition sequence (rev_atoms : list regex) : regex :=
  fold_left (fun acc a => Cat a acc) rev_atoms Eps.

Definition frame_regex (f : frame) : regex :=
  fold_left (fun acc a => Alt a acc) (alts f) (sequence (atoms f)).

Definition continue (st : pstate) (f : frame) : pstate + compiled :=
  inl (PState (outer st) f false false false).

Definition push_atom (st : pstate) (a : regex) : pstate + compiled :=
  continue st (Frame (alts (cur st)) (a :: atoms (cur st))).

Definition quantify (st : pstate) (q : regex -> regex) : pstate + compiled :=
  if opened st || quantified st then inr Beyond
  else match atoms (cur st) with
       | [] => inr Invalid
       | a :: rest =>
           inl (PState (outer st) (Frame (alts (cur st)) (q a :: rest)) false false true)
       end.

Definition step (st : pstate) (c : ascii) : pstate + compiled :=
  if escaped st then
    if is_alnum c then inr Beyond else push_atom st (Chr c)
  else
    match c with
    | "\"%char => inl (PState (outer st) (cur st) true false false)
    | "("%char => inl (PState (cur st :: outer st) (Frame [] []) false true false)
    | ")"%char =>
        match outer st with
        | [] => inr Invalid
        | parent :: rest =>
            inl (PState rest (Frame (alts parent) (frame_regex (cur st) :: atoms parent))
                        false false false)
        end
    | "|"%char => continue st (Frame (sequence (atoms (cur st)) :: alts (cur st)) [])
    | "*"%char => quantify st Star
    | "+"%char => quantify st (fun a => Cat a (Star a))
    | "?"%char => if opened st then inr Beyond else quantify st (fun a => Alt a Eps)
    | "["%char | "]"%char | "{"%char | "}"%char | "^"%char | "$"%char => inr Beyond
    | "."%char => push_atom st Dot
    | _ => push_atom st (Chr c)
    end.

Fixpoint parse (st : pstate) (s : string) : compiled :=
  match s with
  | EmptyString =>
      if escaped st then Invalid
      else match outer st with
           | [] => Pattern (frame_regex (cur st))
           | _ :: _ => Invalid
           end
  | String c s' =>
      match step st c with
      | inl st' => parse st' s'
      | inr stop => stop
      end
  end.

(** Patterns of more than [max_pattern] characters are not modelled, nor are
    patterns with a null character or a character outside ASCII. *)
Definition max_pattern : nat := 200.

Definition in_alphabet (c : ascii) : bool :=
  let n := N_of_ascii c in ((0 <? n) && (n <? 128))%N.

Fixpoint all_in_alphabet (s : string) : bool :=
  match s with
  | EmptyString => true
  | String c s' => in_alphabet c && all_in_alphabet s'
  end.

Definition compile (pattern : string) : compiled :=
  if bool_decide (String.length pattern ≤ max_pattern)%nat && all_in_alphabet pattern
  then parse (PState [] (Frame [] []) false false false) pattern
  else Beyond.

(** ** The world: document store and log of effects *)

Definition oid := N.
Bind Scope N_scope with oid.

Record task := Task {
  task_id : oid;
  task_title : json;
  task_due : json;
  task_completed : bool
}.

Record reminder := Reminder {
  reminder_id : oid;
  reminder_title : json;
  reminder_at : Z;
  reminder_sent : bool
}.

Inductive collection := tasks_coll | reminders_coll.
Inductive store_op := InsertOne | DeleteOne | Find | UpdateMany.

Inductive event :=
| HttpPost (url : string) (body : json)
| Store (c : collection) (op : store_op).

Record world := World {
  tasks : list task;
  reminders : list reminder;
  next_id : oid;
  log : list event
}.

Definition is_http (e : event) : bool :=
  match e with HttpPost _ _ => true | Store _ _ => false end.

Definition is_write (e : event) : bool :=
  match e with
  | Store _ Find | HttpPost _ _ => false
  | Store _ _ => true
  end.

(** What the HTTP client gives for one POST. *)
Inductive http_reply :=
| Unreachable                                      (* [client.post] raises *)
| Response (status_code : Z) (body : option json). (* [None]: [response.json()] raises *)

Record environment := Environment {
  API_KEY : option string;
  post : string -> json -> http_reply;
  pcre_beyond : string -> option (string -> bool)
}.

(** ** The monad of request handlers *)

Definition M (A : Type) : Type := world -> result A * world.

#[global] Instance M_ret : MRet M := fun _ a w => (Ok a, w).
#[global] Instance M_bind : MBind M := fun _ _ f m w =>
  match m w with
  | (Ok a, w') => f a w'
  | (Raise e, w') => (Raise e, w')
  end.

Definition lift {A} (r : result A) : M A := fun w => (r, w).

Definition emit (e : event) : M unit :=
  fun w => (Ok tt, World (tasks w) (reminders w) (next_id w) (log w ++ [e])).

(** ** Store operations, as the handlers issue them *)

(** *** What the driver can encode

    Before an operation is sent, the driver encodes its documents.  An integer
    must fit a signed 64-bit word, else [OverflowError]; a key must not hold a
    null character, else [InvalidDocument].  The fields are encoded in
    order, a key before its value. *)

Definition fits_int64 (z : Z) : bool :=
  (-9223372036854775808 <=? z) && (z <? 9223372036854775808).

Definition has_null (k : string) : bool := contains (String "000" "") k.

Fixpoint first_error (l : list (option exn)) : option exn :=
  match l with
  | [] => None
  | Some e :: _ => Some e
  | None :: l' => first_error l'
  end.

Fixpoint encoding_error (v : json) : option exn :=
  match v with
  | JInt z => if fits_int64 z then None else Some OverflowError
  | JArr l => first_error (map encoding_error l)
  | JObj m =>
      first_error
        (map (fun kv => if has_null (fst kv) then Some InvalidDocument
                        else encoding_error (snd kv)) m)
  | JNull | JBool _ | JFloat _ | JStr _ => None
  end.

(** [db.tasks.insert_one({"title": title, "due": due, "completed": completed})] *)
Definition tasks_insert_one (title due : json) (completed : bool) : M unit :=
  fun w =>
    match first_error [encoding_error title; encoding_error due] with
    | Some e => (Raise e, w)
    | None =>
        (Ok tt, World (tasks w ++ [Task (next_id w) title due completed]) (reminders w)
                      (next_id w + 1)%N (log w ++ [Store tasks_coll InsertOne]))
    end.

(** [db.reminders.insert_one({"title": title, "at": at, "sent": sent})] *)
Definition reminders_insert_one (title : json) (at_ : Z) (sent : bool) : M unit :=
  fun w =>
    match first_error [encoding_error title; encoding_error (JInt at_)] with
    | Some e => (Raise e, w)
    | None =>
        (Ok tt, World (tasks w) (reminders w ++ [Reminder (next_id w) title at_ sent])
                      (next_id w + 1)%N (log w ++ [Store reminders_coll InsertOne]))
    end.

(** The search function of a pattern, or [None] when the store rejects it. *)
Definition regex_search (env : environment) (pattern : string) : option (string -> bool) :=
  match compile pattern with
  | Pattern r => Some (search r)
  | Invalid => None
  | Beyond => pcre_beyond env pattern
  end.

(** A title matches when it is text in which the pattern is found, or an array
    with such a text among its elements. *)
Definition text_matches (found : string -> bool) (v : json) : bool :=
  match v with
  | JStr s => found s
  | _ => false
  end.

Definition title_matches (found : string -> bool) (t : task) : bool :=
  match task_title t with
  | JStr s => found s
  | JArr l => existsb (text_matches found) l
  | _ => false
  end.

(** Removes the first element that satisfies [p]; also says whether one was. *)
Fixpoint remove_first {A} (p : A -> bool) (l : list A) : list A * N :=
  match l with
  | [] => ([], 0%N)
  | x :: l' =>
      if p x then (l', 1%N)
      else let '(r, n) := remove_first p l' in (x :: r, n)
  end.

(** [db.tasks.delete_one({"title": {"$regex": pattern, "$options": "i"}})];
    the result is [deleted_count]. *)
Definition tasks_delete_one (env : environment) (pattern : json) : M N :=
  fun w =>
    let w' := World (tasks w) (reminders w) (next_id w)
                    (log w ++ [Store tasks_coll DeleteOne]) in
    match encoding_error pattern with
    | Some e => (Raise e, w)
    | None =>
        match pattern with
        | JStr p =>
            match regex_search env p with
            | Some found =>
                let '(rest, n) := remove_first (title_matches found) (tasks w) in
                (Ok n, World rest (reminders w) (next_id w) (log w'))
            | None => (Raise OperationFailure, w')
            end
        | _ => (Raise OperationFailure, w')
        end
    end.

(** [db.tasks.find()] *)
Definition tasks_find : M (list task) :=
  fun w => (Ok (tasks w),
            World (tasks w) (reminders w) (next_id w) (log w ++ [Store tasks_coll Find])).

Definition is_due (now : Z) (r : reminder) : bool :=
  (reminder_at r <=? now)%Z && negb (reminder_sent r).

(** [db.reminders.find({"at": {"$lte": now}, "sent": False})] *)
Definition reminders_find_due (now : Z) : M (list reminder) :=
  fun w => (Ok (List.filter (is_due now) (reminders w)),
            World (tasks w) (reminders w) (next_id w)
                  (log w ++ [Store reminders_coll Find])).

Definition mark_sent (r : reminder) : reminder :=
  Reminder (reminder_id r) (reminder_title r) (reminder_at r) true.

(** [db.reminders.update_many({"_id": {"$in": ids}}, {"$set": {"sent": True}})] *)
Definition reminders_update_many (ids : list oid) : M unit :=
  fun w =>
    (Ok tt,
     World (tasks w)
           (map (fun r => if bool_decide (reminder_id r ∈ ids) then mark_sent r else r)
                (reminders w))
           (next_id w) (log w ++ [Store reminders_coll UpdateMany])).

(** ** The program *)

Definition MODEL : string := "gemini-2.0-flash".

Definition dquote : string := String "034" "".

Definition string_param (description : string) : json :=
  JObj [("type", JStr "string"); ("description", JStr description)].

(** The catalog of actions sent to the capability. *)
Definition tools : list json :=
  [ JObj [ ("name", JStr "addTask");
           ("description", JStr "Add a new task to the user's to-do list.");
           ("parameters", JObj [
              ("type", JStr "object");
              ("properties", JObj [
                 ("title", string_param "The title of the task. e.g., 'Buy milk'") ]);
              ("required", JArr [JStr "title"]) ]) ];
    JObj [ ("name", JStr "deleteTask");
           ("description",
            JStr "Delete a task from the user's list based on its title or keywords.");
           ("parameters", JObj [
              ("type", JStr "object");
              ("properties", JObj [
                 ("title", string_param "Keywords to find the task to delete. e.g., 'milk'") ]);
              ("required", JArr [JStr "title"]) ]) ];
    JObj [ ("name", JStr "setReminder");
           ("description", JStr "Set a reminder for the user. Always requires a time.");
           ("parameters", JObj [
              ("type", JStr "object");
              ("properties", JObj [
                 ("title", string_param "The subject of the reminder. e.g., 'Call mom'");
                 ("delay_minutes",
                  JObj [("type", JStr "integer");
                        ("description",
                         JStr "The number of minutes from now to set the reminder.")]) ]);
              ("required", JArr [JStr "title"; JStr "delay_minutes"]) ]) ] ].

(** The names declared in the catalog. *)
Definition tool_names : list string :=
  omap (fun t => match t with
                 | JObj m => match obj_lookup "name" m with
                             | Some (JStr n) => Some n
                             | _ => None
                             end
                 | _ => None
                 end) tools.

Fixpoint hex_of (digits : nat) (n : N) : string :=
  match digits with
  | O => ""
  | S d => hex_of d (n / 16)%N +:+ String (hex_digit (n mod 16)%N) ""
  end.

(** [str(task["_id"])]: the twelve bytes of the id in hexadecimal. *)
Definition oid_str (i : oid) : string := hex_of 24 i.

Definition task_helper (t : task) : json :=
  JObj [ ("id", JStr (oid_str (task_id t)));
         ("title", task_title t);
         ("due", task_due t);
         ("completed", JBool (task_completed t)) ].

(** *** The intent resolver *)

Definition fallback (reply : json) : json :=
  JObj [("name", JStr "fallback"); ("args", JObj [("reply", reply)])].

Definition no_key_reply : string := "Gemini API key is not set.".
Definition error_reply : string := "Sorry, there was an error processing the request.".
Definition unexpected_reply : string := "Sorry, an unexpected error occurred.".

Definition request_url (key : string) : string :=
  "https://generativelanguage.googleapis.com/v1beta/models/" +:+ MODEL
    +:+ ":generateContent?key=" +:+ key.

Definition request_data (prompt : string) : json :=
  JObj [ ("contents", JArr [JObj [("parts", JArr [JObj [("text", JStr prompt)]])]]);
         ("tools", JArr [JObj [("functionDeclarations", JArr tools)]]) ].

(** Line 98: [response_json["candidates"][0]["content"]["parts"][0]]. *)
Definition first_part (response_json : json) : result json :=
  candidates ← py_getitem response_json "candidates";
  candidate ← py_getitem_index candidates 0;
  content ← py_getitem candidate "content";
  parts ← py_getitem content "parts";
  py_getitem_index parts 0.

(** Lines 97-108: what is returned once the response has been decoded. *)
Definition read_response (status_code : Z) (response_json : json) : result json :=
  has_candidates ←
    (if (status_code =? 200)%Z then py_in "candidates" response_json else Ok false);
  if has_candidates : bool then
    part ← first_part response_json;
    is_call ← py_in "functionCall" part;
    if is_call : bool then py_getitem part "functionCall"
    else
      is_text ← py_in "text" part;
      if is_text : bool then text ← py_getitem part "text"; Ok (fallback text)
      else Ok (fallback (JStr error_reply))
  else Ok (fallback (JStr error_reply)).

(** The body of the [try]: one POST, then decoding and reading the response. *)
Definition call_capability (env : environment) (key prompt : string) : M json :=
  let url := request_url key in
  let data := request_data prompt in
  emit (HttpPost url data);;
  match post env url data with
  | Unreachable => lift (Raise TransportError)
  | Response status_code None => lift (Raise JSONDecodeError)
  | Response status_code (Some response_json) =>
      lift (read_response status_code response_json)
  end.

(** [gemini_tool_call]: no [result] in its type, whatever is raised inside the
    [try] is caught. *)
Definition gemini_tool_call (env : environment) (prompt : string) : world -> json * world :=
  fun w =>
    match API_KEY env with
    | None | Some EmptyString => (fallback (JStr no_key_reply), w)
    | Some key =>
        match call_capability env key prompt w with
        | (Ok action, w') => (action, w')
        | (Raise _, w') => (fallback (JStr unexpected_reply), w')
        end
    end.

(** *** The handlers *)

Definition handler : Type := environment -> Z -> json -> M string.

Definition handle_add_task : handler := fun env now args =>
  title ← lift (py_getitem args "title");
  tasks_insert_one title JNull false;;
  title ← lift (py_getitem args "title");
  mret ("Task added: " +:+ dquote +:+ py_str title +:+ dquote).

Definition handle_delete_task : handler := fun env now args =>
  pattern ← lift (py_getitem args "title");
  deleted_count ← tasks_delete_one env pattern;
  title ← lift (py_getitem args "title");
  mret (if (0 <? deleted_count)%N
        then "Deleted task matching '" +:+ py_str title +:+ "'."
        else "Couldn't find a task matching '" +:+ py_str title +:+ "'.").

(** [now] is the reading of the clock, in milliseconds since the epoch. *)
Definition handle_set_reminder : handler := fun env now args =>
  delay ← lift (py_getitem args "delay_minutes");
  minutes ← lift (py_int delay);
  let reminder_time := (now + minutes * 60000)%Z in
  title ← lift (py_getitem args "title");
  reminders_insert_one title reminder_time false;;
  title ← lift (py_getitem args "title");
  delay ← lift (py_getitem args "delay_minutes");
  mret ("OK, I'll remind you about " +:+ dquote +:+ py_str title +:+ dquote
          +:+ " in " +:+ py_str delay +:+ " minutes.").

Definition tool_handlers : gmap string handler :=
  <["addTask" := handle_add_task]>
  (<["deleteTask" := handle_delete_task]>
  (<["setReminder" := handle_set_reminder]> ∅)).

(** [tool_handlers.get(tool_name)]: lists and dictionaries cannot be hashed. *)
Definition find_handler (tool_name : json) : result (option handler) :=
  match tool_name with
  | JStr name => Ok (tool_handlers !! name)
  | JArr _ | JObj _ => Raise TypeError
  | _ => Ok None
  end.

Definition unsure_reply : string := "I'm not sure how to help with that.".

(** *** The endpoints *)

(** [GET /chat?msg=...] *)
Definition chat (env : environment) (now : Z) (msg : string) : M json :=
  tool_response ← (fun w => let '(a, w') := gemini_tool_call env msg w in (Ok a, w'));
  tool_name ← lift (py_get tool_response "name" JNull);
  found ← lift (find_handler tool_name);
  reply ← match found with
          | Some h =>
              args ← lift (py_get tool_response "args" (JObj []));
              text ← h env now args;
              mret (JStr text)
          | None =>
              args ← lift (py_get tool_response "args" (JObj []));
              lift (py_get args "reply" (JStr unsure_reply))
          end;
  mret (JObj [("reply", reply)]).

(** [GET /api/tasks] *)
Definition get_tasks : M json :=
  found ← tasks_find;
  mret (JObj [("tasks", JArr (map task_helper found))]).

(** The handler of [GET /api/due-reminders]; what it returns is the list under
    ["reminders"], of documents as the store gave them. *)
Definition get_due_reminders (now : Z) : M (list reminder) :=
  due_reminders ← reminders_find_due now;
  match due_reminders with
  | [] => mret tt
  | _ :: _ => reminders_update_many (map reminder_id due_reminders)
  end;;
  mret due_reminders.

(** *** The response of [GET /api/due-reminders]

    In a document of the store the value under ["_id"] is the store's id
    object, not a JSON value ([get_tasks] replaces it by its text, in
    [task_helper]; [get_due_reminders] returns it as it is).  The framework
    encodes what a handler has returned before it sends it, and raises
    [ValueError] on a value that it cannot encode. *)

Inductive field :=
| ObjectId (i : oid)
| Value (v : json).

Definition reminder_document (r : reminder) : list (string * field) :=
  [ ("_id", ObjectId (reminder_id r));
    ("title", Value (reminder_title r));
    ("at", Value (JInt (reminder_at r)));
    ("sent", Value (JBool (reminder_sent r))) ].

Definition encode_field (f : field) : result json :=
  match f with
  | Value v => Ok v
  | ObjectId _ => Raise ValueError
  end.

Fixpoint encode_document (d : list (string * field)) : result (list (string * json)) :=
  match d with
  | [] => Ok []
  | (k, f) :: d' =>
      v ← encode_field f;
      rest ← encode_document d';
      Ok ((k, v) :: rest)
  end.

Fixpoint encode_documents (ds : list (list (string * field))) : result (list json) :=
  match ds with
  | [] => Ok []
  | d :: ds' =>
      m ← encode_document d;
      rest ← encode_documents ds';
      Ok (JObj m :: rest)
  end.

(** [GET /api/due-reminders]: the handler, then the encoding of
    [{"reminders": due_reminders}]. *)
Definition api_due_reminders (now : Z) : M json :=
  due_reminders ← get_due_reminders now;
  documents ← lift (encode_documents (map reminder_document due_reminders));
  mret (JObj [("reminders", JArr documents)]).

(** * Vocabulary of the statements *)

(** The replies of the handlers. *)
Definition task_added (title : string) : string :=
  "Task added: " +:+ dquote +:+ title +:+ dquote.

Definition reminder_set (title delay : json) : string :=
  "OK, I'll remind you about " +:+ dquote +:+ py_str title +:+ dquote
    +:+ " in " +:+ py_str delay +:+ " minutes.".

Definition deleted_reply (keyword : string) : string :=
  "Deleted task matching '" +:+ keyword +:+ "'.".

Definition not_found_reply (keyword : string) : string :=
  "Couldn't find a task matching '" +:+ keyword +:+ "'.".

(** The world after one POST with [key] and [prompt]. *)
Definition posted (key prompt : string) (w : world) : world :=
  World (tasks w) (reminders w) (next_id w)
        (log w ++ [HttpPost (request_url key) (request_data prompt)]).

(** A 200 response whose first part is [part]. *)
Definition response_with (part : json) : http_reply :=
  Response 200
    (Some (JObj [("candidates",
                  JArr [JObj [("content", JObj [("parts", JArr [part])])]])])).

(** The response carries neither a structured call nor text. *)
Definition malformed (response_json : json) : Prop :=
  ∀ part, first_part response_json = Ok part →
    py_in "functionCall" part ≠ Ok true ∧ py_in "text" part ≠ Ok true.

(** The action names no handler: its name is absent, or a value that is not a
    key of the table. *)
Definition undispatched (action : list (string * json)) : Prop :=
  match obj_lookup "name" action with
  | Some (JStr name) => name ∉ tool_names
  | Some (JArr _) | Some (JObj _) => False
  | _ => True
  end.

(** The matching that the specification describes: the keyword occurs in the
    title as a substring, letter case ignored. *)
Fixpoint lowercase (s : string) : string :=
  match s with
  | EmptyString => ""
  | String c s' => String (lower c) (lowercase s')
  end.

Definition substring_match (keyword title : string) : bool :=
  contains (lowercase keyword) (lowercase title).

(** [s] is the title of [t], or an element of its title when that is an
    array. *)
Definition title_text (t : task) (s : string) : Prop :=
  task_title t = JStr s ∨ ∃ l, task_title t = JArr l ∧ JStr s ∈ l.

(** The text [s] has ASCII characters only.  The matcher of this development
    compares bytes and folds the case of the letters [A] to [Z]; the store's
    matcher works on code points, so the two are compared on ASCII titles. *)
Definition ascii_text (s : string) : bool :=
  forallb (fun c => (N_of_ascii c <? 128)%N) (list_ascii_of_string s).

(** Every text among the titles of the tasks [l] is ASCII. *)
Definition ascii_titles (l : list task) : Prop :=
  ∀ t s, t ∈ l → title_text t s → ascii_text s = true.

(** A character that the pattern syntax reads as itself. *)
Definition is_plain (c : ascii) : bool :=
  in_alphabet c &&
  match c with
  | "\"%char | "("%char | ")"%char | "|"%char | "*"%char | "+"%char | "?"%char
  | "["%char | "]"%char | "{"%char | "}"%char | "^"%char | "$"%char | "."%char => false
  | _ => true
  end.

Fixpoint all_plain (s : string) : bool :=
  match s with
  | EmptyString => true
  | String c s' => is_plain c && all_plain s'
  end.

(** The pattern that reads the characters of [s] one after the other. *)
Fixpoint literal (s : string) : regex :=
  match s with
  | EmptyString => Eps
  | String c s' => Cat (Chr c) (literal s')
  end.

(** The atoms that the compiler has collected after reading [s], latest first. *)
Fixpoint atoms_of (s : string) (acc : list regex) : list regex :=
  match s with
  | EmptyString => acc
  | String c s' => atoms_of s' (Chr c :: acc)
  end.

(** A request to one of the three endpoints, with what the environment gives
    while it is served. *)
Inductive request :=
| ChatRequest (env : environment) (now : Z) (msg : string)
| TasksRequest
| DueRequest (now : Z).

(** The world after the request has been served. *)
Definition serve (q : request) (w : world) : world :=
  match q with
  | ChatRequest env now msg => snd (chat env now msg w)
  | TasksRequest => snd (get_tasks w)
  | DueRequest now => snd (get_due_reminders now w)
  end.

(** The ids of the reminders that the handler of the request returns, which
    are those that a response can carry. *)
Definition delivered (q : request) (w : world) : list oid :=
  match q with
  | DueRequest now =>
      match fst (get_due_reminders now w) with
      | Ok due => map reminder_id due
      | Raise _ => []
      end
  | _ => []
  end.

(** The ids delivered by a sequence of requests served one after the other. *)
Fixpoint deliveries (qs : list request) (w : world) : list oid :=
  match qs with
  | [] => []
  | q :: qs' => delivered q w ++ deliveries qs' (serve q w)
  end.

Definition ids (w : world) : list oid :=
  map task_id (tasks w) ++ map reminder_id (reminders w).

(** The ids in the store are distinct and below the next id to assign. *)
Definition store_ok (w : world) : Prop :=
  NoDup (ids w) ∧ ∀ i, i ∈ ids w → (i < next_id w)%N.

(** The changes that one request can make to the store. *)
Inductive store_step (w w' : world) : Prop :=
| step_none :
    tasks w' = tasks w → reminders w' = reminders w → next_id w' = next_id w →
    store_step w w'
| step_task_added (title : json) :
    tasks w' = (tasks w ++ [Task (next_id w) title JNull false])%list →
    reminders w' = reminders w → next_id w' = (next_id w + 1)%N →
    store_step w w'
| step_task_deleted (l1 l2 : list task) (x : task) :
    tasks w = (l1 ++ x :: l2)%list → tasks w' = (l1 ++ l2)%list →
    reminders w' = reminders w → next_id w' = next_id w →
    store_step w w'
| step_reminder_added (title : json) (at_ : Z) :
    tasks w' = tasks w →
    reminders w' = (reminders w ++ [Reminder (next_id w) title at_ false])%list →
    next_id w' = (next_id w + 1)%N →
    store_step w w'
| step_marked (sent_ids : list oid) :
    tasks w' = tasks w →
    reminders w' =
      map (fun r => if bool_decide (reminder_id r ∈ sent_ids) then mark_sent r else r)
          (reminders w) →
    next_id w' = next_id w →
    store_step w w'.

(** The world after a sequence of requests served one after the other. *)
Definition serve_all (qs : list request) (w : world) : world :=
  fold_left (fun w q => serve q w) qs w.

(** The store before any request. *)
Definition empty_world : world := World [] [] 0 [].

(** An environment without credential and without network. *)
Definition offline : environment :=
  Environment None (fun _ _ => Unreachable) (fun _ => None).

(** An environment whose capability answers every POST with [reply]. *)
Definition answering (reply : http_reply) : environment :=
  Environment (Some "k") (fun _ _ => reply) (fun _ => None).

(** A 200 response whose first part carries text and a structured call, and
    which has a second part and a second candidate. *)
Definition call_and_text : http_reply :=
  Response 200 (Some (JObj [
    ("candidates", JArr [
       JObj [("content", JObj [("parts", JArr [
          JObj [("text", JStr "Adding it.");
                ("functionCall", JObj [("name", JStr "addTask")])];
          JObj [("text", JStr "Done.")]])])];
       JObj []])])).

(** The changes that one [chat] request can make to the store: none, one task
    more, one task less, or one reminder more. *)
Definition one_change (w w' : world) : Prop :=
  (tasks w' = tasks w ∧ reminders w' = reminders w ∧ next_id w' = next_id w)
  ∨ (∃ title,
       tasks w' = (tasks w ++ [Task (next_id w) title JNull false])%list
       ∧ reminders w' = reminders w ∧ next_id w' = (next_id w + 1)%N)
  ∨ (∃ l1 x l2,
       tasks w = (l1 ++ x :: l2)%list ∧ tasks w' = (l1 ++ l2)%list
       ∧ reminders w' = reminders w ∧ next_id w' = next_id w)
  ∨ (∃ title at_,
       tasks w' = tasks w
       ∧ reminders w' = (reminders w ++ [Reminder (next_id w) title at_ false])%list
       ∧ next_id w' = (next_id w + 1)%N).

(** Unfolds the monads so that a handler runs on the world at hand. *)
Ltac run :=
  unfold mbind, mret, M_bind, M_ret, result_bind, result_ret, lift, emit; simpl.

(** * Properties *)

(** ** Schema and dispatch table *)

Lemma tool_names_eq : tool_names = ["addTask"; "deleteTask"; "setReminder"].
Proof. reflexivity. Qed.

(** C9: the names declared in the catalog [tools] are exactly the keys of the
    dispatch table [tool_handlers], and no name is declared twice. *)
Theorem schema_table_coverage :
  (∀ name : string, name ∈ tool_names ↔ is_Some (tool_handlers !! name))
  ∧ NoDup tool_names
  ∧ size tool_handlers = length tool_names.
Proof.
  rewrite tool_names_eq. split; [|split].
  - intros name. unfold tool_handlers.
    rewrite !lookup_insert_is_Some, lookup_empty, !elem_of_cons, elem_of_nil.
    split.
    + intros [->|[->|[->|[]]]]; auto 10.
    + intros [H|[_ [H|[_ [H|[_ H]]]]]]; subst; auto. by destruct H.
  - by apply (bool_decide_unpack _).
  - unfold tool_handlers. by rewrite !map_size_insert_None, map_size_empty.
Qed.

(** ** Adding a task *)



(** ** The due-reminder sweep *)

Lemma same_id_same_reminder (l : list reminder) (r r' : reminder) :
  NoDup (map reminder_id l) → r ∈ l → r' ∈ l →
  reminder_id r = reminder_id r' → r = r'.
Proof.
  induction l as [|x l IH]; simpl; intros Hnd Hr Hr' Hid.
  - by apply elem_of_nil in Hr.
  - apply NoDup_cons in Hnd as [Hx Hnd].
    apply elem_of_cons in Hr as [->|Hr]; apply elem_of_cons in Hr' as [->|Hr']; auto.
    + exfalso. apply Hx. rewrite Hid. by apply (list_elem_of_fmap_2 reminder_id).
    + exfalso. apply Hx. rewrite <- Hid. by apply (list_elem_of_fmap_2 reminder_id).
Qed.

Lemma due_ids (now : Z) (l : list reminder) (r : reminder) :
  NoDup (map reminder_id l) → r ∈ l →
  reminder_id r ∈ map reminder_id (List.filter (is_due now) l) ↔ is_due now r = true.
Proof.
  intros Hnd Hr. split.
  - intros Hin. apply list_elem_of_fmap in Hin as (r' & Hid & Hr').
    apply list_elem_of_In, filter_In in Hr' as [Hr' Hdue].
    apply list_elem_of_In in Hr'.
    by rewrite (same_id_same_reminder l r r' Hnd Hr Hr' Hid).
  - intros Hdue. apply (list_elem_of_fmap_2 reminder_id).
    apply list_elem_of_In, filter_In. split; [by apply list_elem_of_In|done].
Qed.

Lemma map_ext_elem {A B} (f g : A → B) (l : list A) :
  (∀ x, x ∈ l → f x = g x) → map f l = map g l.
Proof.
  intros H. apply map_ext_in. intros x Hx. apply H. by apply list_elem_of_In.
Qed.

(** C3 fails at the endpoint for the reason of C2.  The store holds four
    reminders: one unsent whose time has passed, one sent, one unsent whose
    time has not come, one unsent whose time is now.  The handler finds the
    first and the last and the store holds them marked sent, but the response
    cannot be encoded, so the request raises instead of returning them.  When
    nothing is due the response is the empty list and the only operation
    issued is the query. *)
Theorem due_poll_marks_then_raises :
  get_due_reminders 50
    (World [] [Reminder 0 (JStr "a") 10 false; Reminder 1 (JStr "b") 20 true;
               Reminder 2 (JStr "c") 90 false; Reminder 3 (JStr "d") 50 false] 4 [])
  = (Ok [Reminder 0 (JStr "a") 10 false; Reminder 3 (JStr "d") 50 false],
     World [] [Reminder 0 (JStr "a") 10 true; Reminder 1 (JStr "b") 20 true;
               Reminder 2 (JStr "c") 90 false; Reminder 3 (JStr "d") 50 true] 4
           [Store reminders_coll Find; Store reminders_coll UpdateMany])
  ∧ api_due_reminders 50
      (World [] [Reminder 0 (JStr "a") 10 false; Reminder 1 (JStr "b") 20 true;
                 Reminder 2 (JStr "c") 90 false; Reminder 3 (JStr "d") 50 false] 4 [])
    = (Raise ValueError,
       World [] [Reminder 0 (JStr "a") 10 true; Reminder 1 (JStr "b") 20 true;
                 Reminder 2 (JStr "c") 90 false; Reminder 3 (JStr "d") 50 true] 4
             [Store reminders_coll Find; Store reminders_coll UpdateMany])
  ∧ api_due_reminders 5
      (World [] [Reminder 0 (JStr "a") 10 false; Reminder 1 (JStr "b") 20 true;
                 Reminder 2 (JStr "c") 90 false; Reminder 3 (JStr "d") 50 false] 4 [])
    = (Ok (JObj [("reminders", JArr [])]),
       World [] [Reminder 0 (JStr "a") 10 false; Reminder 1 (JStr "b") 20 true;
                 Reminder 2 (JStr "c") 90 false; Reminder 3 (JStr "d") 50 false] 4
             [Store reminders_coll Find]).
Proof. repeat split. Qed.

(** What [api_due_reminders] answers, by what the handler found. *)
Lemma api_due_reminders_run (now : Z) (w : world) :
  api_due_reminders now w =
    (match List.filter (is_due now) (reminders w) with
     | [] => Ok (JObj [("reminders", JArr [])])
     | _ :: _ => Raise ValueError
     end, snd (get_due_reminders now w)).
Proof.
  unfold api_due_reminders, get_due_reminders. run.
  by destruct (List.filter (is_due now) (reminders w)) as [|d due].
Qed.

(** ** Scheduling a reminder *)

Lemma fits_int64_spec (z : Z) :
  fits_int64 z = true ↔ -9223372036854775808 ≤ z < 9223372036854775808.
Proof. unfold fits_int64. rewrite andb_true_iff, Z.leb_le, Z.ltb_lt. tauto. Qed.

Lemma set_reminder_runs (env : environment) (now : Z) (m : list (string * json))
    (T : string) (delay : json) (minutes : Z) (w : world) :
  obj_lookup "title" m = Some (JStr T) →
  obj_lookup "delay_minutes" m = Some delay →
  py_int delay = Ok minutes →
  -9223372036854775808 ≤ now + minutes * 60000 < 9223372036854775808 →
  handle_set_reminder env now (JObj m) w =
    (Ok (reminder_set (JStr T) delay),
     World (tasks w)
           (reminders w ++ [Reminder (next_id w) (JStr T) (now + minutes * 60000) false])
           (next_id w + 1)%N
           (log w ++ [Store reminders_coll InsertOne])).
Proof.
  intros Ht Hd Hi Hfits. apply fits_int64_spec in Hfits.
  unfold handle_set_reminder, reminders_insert_one. run.
  rewrite Hd. simpl. rewrite Hi. simpl. rewrite Ht. simpl. rewrite Hfits. reflexivity.
Qed.





(** ** The poll for due reminders *)

(** C2 fails at the endpoint.  A reminder is created with delay 0;
    [get_due_reminders] finds it at the next poll and the store holds it
    marked sent, but the documents that the handler returns carry the store's
    id object, which the response cannot encode ([get_tasks] turns it into
    text, this handler does not): the first poll raises instead of returning
    the reminder, and the second returns the empty list.  The reminder is
    delivered to no poll. *)
Theorem due_reminder_poll_raises (env : environment) :
  handle_set_reminder env 1000
    (JObj [("title", JStr "tea"); ("delay_minutes", JInt 0)]) (World [] [] 0 [])
  = (Ok (reminder_set (JStr "tea") (JInt 0)),
     World [] [Reminder 0 (JStr "tea") 1000 false] 1 [Store reminders_coll InsertOne])
  ∧ api_due_reminders 1000
      (World [] [Reminder 0 (JStr "tea") 1000 false] 1 [Store reminders_coll InsertOne])
    = (Raise ValueError,
       World [] [Reminder 0 (JStr "tea") 1000 true] 1
             [Store reminders_coll InsertOne; Store reminders_coll Find;
              Store reminders_coll UpdateMany])
  ∧ api_due_reminders 1001
      (World [] [Reminder 0 (JStr "tea") 1000 true] 1
             [Store reminders_coll InsertOne; Store reminders_coll Find;
              Store reminders_coll UpdateMany])
    = (Ok (JObj [("reminders", JArr [])]),
       World [] [Reminder 0 (JStr "tea") 1000 true] 1
             [Store reminders_coll InsertOne; Store reminders_coll Find;
              Store reminders_coll UpdateMany; Store reminders_coll Find]).
Proof. repeat split. Qed.

(** ** The intent resolver *)

Lemma gemini_tool_call_with_key (env : environment) (key prompt : string) (w : world) :
  API_KEY env = Some key → key ≠ "" →
  gemini_tool_call env prompt w =
    (match post env (request_url key) (request_data prompt) with
     | Unreachable | Response _ None => fallback (JStr unexpected_reply)
     | Response status_code (Some response_json) =>
         match read_response status_code response_json with
         | Ok action => action
         | Raise _ => fallback (JStr unexpected_reply)
         end
     end, posted key prompt w).
Proof.
  intros Hkey Hne. unfold gemini_tool_call, call_capability. rewrite Hkey.
  destruct key as [|c key]; [done|]. run.
  destruct (post env _ _) as [|status_code [response_json|]]; try reflexivity.
  by destruct (read_response status_code response_json).
Qed.

(** The resolver leaves the store alone and issues at most one POST. *)
Lemma gemini_tool_call_store (env : environment) (prompt : string) (w : world) :
  let w' := snd (gemini_tool_call env prompt w) in
  tasks w' = tasks w ∧ reminders w' = reminders w ∧ next_id w' = next_id w
  ∧ List.filter is_write (log w') = List.filter is_write (log w).
Proof.
  destruct (API_KEY env) as [[|c key]|] eqn:Hkey.
  - unfold gemini_tool_call. rewrite Hkey. by simpl.
  - rewrite (gemini_tool_call_with_key env (String c key) prompt w Hkey) by done.
    simpl. rewrite List.filter_app. simpl. by rewrite app_nil_r.
  - unfold gemini_tool_call. rewrite Hkey. by simpl.
Qed.

Lemma read_response_malformed (response_json : json) :
  malformed response_json →
  match read_response 200 response_json with
  | Ok action => action = fallback (JStr error_reply)
  | Raise _ => True
  end.
Proof.
  intros Hbad. unfold read_response. simpl.
  destruct (py_in "candidates" response_json) as [[|]|]; simpl; try done.
  destruct (first_part response_json) as [part|] eqn:Hpart; simpl; try done.
  destruct (Hbad part Hpart) as [Hcall Htext].
  destruct (py_in "functionCall" part) as [[|]|]; simpl; try done.
  destruct (py_in "text" part) as [[|]|]; simpl; done.
Qed.

(** C1: [gemini_tool_call] always returns an action, and on every failure the
    action is the dictionary with [name] = ["fallback"] and, under [args], a
    [reply] with a fixed text.  Without a credential ([API_KEY] unset or empty)
    the text says that the key is not set, and the world, the log of network
    calls included, is as it was.  With a credential it posts once; if the
    call raises, if the body cannot be decoded, or if reading the response
    raises, the text is "Sorry, an unexpected error occurred."; if the status
    is not 200 or the response carries neither a structured call nor text,
    the text is "Sorry, there was an error processing the request." (or the
    former text, when reading the malformed response raised).  In every case
    the result is such a fallback dictionary or the structured call of a 200
    response. *)
Theorem gemini_tool_call_falls_back (env : environment) (prompt : string) (w : world) :
  (API_KEY env = None ∨ API_KEY env = Some "" →
     gemini_tool_call env prompt w =
       (JObj [("name", JStr "fallback");
              ("args", JObj [("reply", JStr "Gemini API key is not set.")])], w))
  ∧ (∀ key, API_KEY env = Some key → key ≠ "" →
       snd (gemini_tool_call env prompt w) = posted key prompt w
       ∧ (post env (request_url key) (request_data prompt) = Unreachable →
            fst (gemini_tool_call env prompt w) =
              JObj [("name", JStr "fallback");
                    ("args", JObj [("reply", JStr "Sorry, an unexpected error occurred.")])])
       ∧ (∀ status_code,
            post env (request_url key) (request_data prompt) = Response status_code None →
            fst (gemini_tool_call env prompt w) =
              JObj [("name", JStr "fallback");
                    ("args", JObj [("reply", JStr "Sorry, an unexpected error occurred.")])])
       ∧ (∀ status_code response_json,
            post env (request_url key) (request_data prompt)
              = Response status_code (Some response_json) →
            (status_code ≠ 200 →
               fst (gemini_tool_call env prompt w) =
                 JObj [("name", JStr "fallback");
                       ("args",
                        JObj [("reply",
                               JStr "Sorry, there was an error processing the request.")])])
            ∧ (malformed response_json →
                 fst (gemini_tool_call env prompt w) =
                   JObj [("name", JStr "fallback");
                         ("args",
                          JObj [("reply",
                                 JStr "Sorry, there was an error processing the request.")])]
                 ∨ fst (gemini_tool_call env prompt w) =
                     JObj [("name", JStr "fallback");
                           ("args",
                            JObj [("reply", JStr "Sorry, an unexpected error occurred.")])])
            ∧ (∀ e, read_response status_code response_json = Raise e →
                 fst (gemini_tool_call env prompt w) =
                   JObj [("name", JStr "fallback");
                         ("args",
                          JObj [("reply", JStr "Sorry, an unexpected error occurred.")])])))
  ∧ ((∃ text, fst (gemini_tool_call env prompt w) =
                JObj [("name", JStr "fallback"); ("args", JObj [("reply", text)])])
     ∨ (∃ key response_json part,
          API_KEY env = Some key
          ∧ post env (request_url key) (request_data prompt)
              = Response 200 (Some response_json)
          ∧ first_part response_json = Ok part
          ∧ py_getitem part "functionCall" = Ok (fst (gemini_tool_call env prompt w)))).
Proof.
  split; [|split].
  - intros [Hkey|Hkey]; unfold gemini_tool_call; by rewrite Hkey.
  - intros key Hkey Hne.
    rewrite (gemini_tool_call_with_key env key prompt w Hkey Hne). simpl.
    split; [done|]. split; [by intros ->|]. split; [by intros ? ->|].
    intros status_code response_json ->. split; [|split].
    + intros Hstatus. unfold read_response.
      by rewrite (proj2 (Z.eqb_neq status_code 200) Hstatus).
    + intros Hbad.
      destruct (Z.eq_dec status_code 200) as [->|Hstatus].
      * pose proof (read_response_malformed response_json Hbad) as Hread.
        destruct (read_response 200 response_json); [left; by rewrite Hread|by right].
      * left. unfold read_response.
        by rewrite (proj2 (Z.eqb_neq status_code 200) Hstatus).
    + by intros e ->.
  - destruct (API_KEY env) as [[|c key]|] eqn:Hkey.
    + left. unfold gemini_tool_call. rewrite Hkey. by eexists.
    + rewrite (gemini_tool_call_with_key env (String c key) prompt w Hkey) by done.
      simpl.
      destruct (post env _ _) as [|status_code [response_json|]] eqn:Hpost;
        try (left; by eexists).
      unfold read_response.
      destruct (Z.eqb_spec status_code 200) as [->|Hstatus]; [|left; by eexists].
      destruct (py_in "candidates" response_json) as [[|]|]; simpl;
        try (left; by eexists).
      destruct (first_part response_json) as [part|] eqn:Hpart; simpl;
        try (left; by eexists).
      destruct (py_in "functionCall" part) as [[|]|]; simpl; try (left; by eexists).
      * destruct (py_getitem part "functionCall") as [action|] eqn:Hcall; simpl;
          [|left; by eexists].
        right. by exists (String c key), response_json, part.
      * destruct (py_in "text" part) as [[|]|]; simpl; try (left; by eexists).
        destruct (py_getitem part "text"); simpl; left; by eexists.
    + left. unfold gemini_tool_call. rewrite Hkey. by eexists.
Qed.

Lemma gemini_tool_call_falls_back_cases :
  (API_KEY offline = None
   ∧ gemini_tool_call offline "buy milk" (World [] [] 0%N [])
     = (JObj [("name", JStr "fallback");
              ("args", JObj [("reply", JStr "Gemini API key is not set.")])],
        World [] [] 0%N []))
  ∧ (API_KEY (answering (Response 503 (Some JNull))) = Some "k"
     ∧ "k" ≠ ""
     ∧ 503 ≠ 200
     ∧ fst (gemini_tool_call (answering (Response 503 (Some JNull)))
              "buy milk" (World [] [] 0%N []))
       = JObj [("name", JStr "fallback");
               ("args",
                JObj [("reply", JStr "Sorry, there was an error processing the request.")])])
  ∧ (API_KEY (answering Unreachable) = Some "k"
     ∧ fst (gemini_tool_call (answering Unreachable) "buy milk" (World [] [] 0%N []))
       = JObj [("name", JStr "fallback");
               ("args", JObj [("reply", JStr "Sorry, an unexpected error occurred.")])]).
Proof.
  split; [|split].
  - split; [reflexivity|].
    apply (gemini_tool_call_falls_back offline). left. reflexivity.
  - split; [reflexivity|]. split; [discriminate|]. split; [lia|].
    apply (gemini_tool_call_falls_back (answering (Response 503 (Some JNull)))
             "buy milk" (World [] [] 0%N []))
      with (key := "k") (status_code := 503) (response_json := JNull);
      [reflexivity | discriminate | reflexivity | lia].
  - split; [reflexivity|].
    apply (gemini_tool_call_falls_back (answering Unreachable)
             "buy milk" (World [] [] 0%N []))
      with (key := "k"); [reflexivity | discriminate | reflexivity].
Defined.

(** ** The executor *)

Lemma lookup_add_task : tool_handlers !! "addTask" = Some handle_add_task.
Proof. unfold tool_handlers. by rewrite lookup_insert_eq. Qed.

Lemma lookup_delete_task : tool_handlers !! "deleteTask" = Some handle_delete_task.
Proof.
  unfold tool_handlers. rewrite lookup_insert_ne by done. by rewrite lookup_insert_eq.
Qed.

Lemma lookup_set_reminder : tool_handlers !! "setReminder" = Some handle_set_reminder.
Proof.
  unfold tool_handlers. rewrite !lookup_insert_ne by done. by rewrite lookup_insert_eq.
Qed.

Lemma lookup_unknown (name : string) :
  name ∉ tool_names → tool_handlers !! name = None.
Proof.
  rewrite tool_names_eq, !not_elem_of_cons. intros (H1 & H2 & H3 & _).
  unfold tool_handlers. by rewrite !lookup_insert_ne, lookup_empty.
Qed.

(** What [chat] does once the resolver has returned a dictionary. *)
Lemma chat_after_resolver (env : environment) (now : Z) (msg : string)
    (action : list (string * json)) (w w1 : world) :
  gemini_tool_call env msg w = (JObj action, w1) →
  chat env now msg w =
    match find_handler (default JNull (obj_lookup "name" action)) with
    | Raise e => (Raise e, w1)
    | Ok (Some h) =>
        match h env now (default (JObj []) (obj_lookup "args" action)) w1 with
        | (Ok text, w2) => (Ok (JObj [("reply", JStr text)]), w2)
        | (Raise e, w2) => (Raise e, w2)
        end
    | Ok None =>
        match py_get (default (JObj []) (obj_lookup "args" action)) "reply"
                     (JStr unsure_reply) with
        | Ok reply => (Ok (JObj [("reply", reply)]), w1)
        | Raise e => (Raise e, w1)
        end
    end.
Proof.
  intros Hres. unfold chat. run. rewrite Hres. simpl.
  destruct (find_handler _) as [[h|]|e]; simpl; try reflexivity.
  by destruct (h env now _ w1) as [[text|e] w2].
Qed.

(** C10: when the resolver returns a structured call that names a handler of
    the table and whose arguments lack a required one ([title], or
    [delay_minutes] for [setReminder]), [chat] raises [KeyError] for that
    argument instead of returning a reply, and the store is as it was: the
    handlers index [args] without a check. *)
Theorem chat_missing_argument_faults (env : environment) (now : Z) (msg : string)
    (action args : list (string * json)) (name : string) (w w1 : world) :
  gemini_tool_call env msg w = (JObj action, w1) →
  obj_lookup "name" action = Some (JStr name) →
  default (JObj []) (obj_lookup "args" action) = JObj args →
  (name = "addTask" ∨ name = "deleteTask" → obj_lookup "title" args = None →
     chat env now msg w = (Raise (KeyError "title"), w1))
  ∧ (name = "setReminder" → obj_lookup "delay_minutes" args = None →
       chat env now msg w = (Raise (KeyError "delay_minutes"), w1))
  ∧ (name = "setReminder" → obj_lookup "title" args = None →
       ∀ delay minutes, obj_lookup "delay_minutes" args = Some delay →
         py_int delay = Ok minutes →
         chat env now msg w = (Raise (KeyError "title"), w1))
  ∧ tasks w1 = tasks w ∧ reminders w1 = reminders w.
Proof.
  intros Hres Hname Hargs.
  rewrite (chat_after_resolver env now msg action w w1 Hres), Hname, Hargs. simpl.
  split; [|split; [|split]].
  - intros [->| ->] Htitle.
    + rewrite lookup_add_task. unfold handle_add_task. run. by rewrite Htitle.
    + rewrite lookup_delete_task. unfold handle_delete_task. run. by rewrite Htitle.
  - intros -> Hdelay. rewrite lookup_set_reminder. unfold handle_set_reminder. run.
    by rewrite Hdelay.
  - intros -> Htitle delay minutes Hdelay Hint.
    rewrite lookup_set_reminder. unfold handle_set_reminder. run.
    rewrite Hdelay. simpl. rewrite Hint. simpl. by rewrite Htitle.
  - pose proof (gemini_tool_call_store env msg w) as Hstore.
    rewrite Hres in Hstore. simpl in Hstore. tauto.
Qed.

Lemma chat_missing_argument_faults_add :
  gemini_tool_call
    (Environment (Some "k")
       (fun _ _ => response_with (JObj [("functionCall", JObj [("name", JStr "addTask")])]))
       (fun _ => None))
    "add it" (World [] [] 0%N [])
  = (JObj [("name", JStr "addTask")],
     posted "k" "add it" (World [] [] 0%N []))
  ∧ obj_lookup "name" [("name", JStr "addTask")] = Some (JStr "addTask")
  ∧ default (JObj []) (obj_lookup "args" [("name", JStr "addTask")]) = JObj []
  ∧ obj_lookup "title" [] = None
  ∧ fst (chat
           (Environment (Some "k")
              (fun _ _ =>
                 response_with (JObj [("functionCall", JObj [("name", JStr "addTask")])]))
              (fun _ => None))
           1000 "add it" (World [] [] 0%N []))
    = Raise (KeyError "title").
Proof.
  split; [reflexivity|]. split; [reflexivity|]. split; [reflexivity|].
  split; [reflexivity|].
  rewrite (proj1 (chat_missing_argument_faults
                    (Environment (Some "k")
                       (fun _ _ =>
                          response_with
                            (JObj [("functionCall", JObj [("name", JStr "addTask")])]))
                       (fun _ => None))
                    1000 "add it" [("name", JStr "addTask")] [] "addTask"
                    (World [] [] 0%N []) _ eq_refl eq_refl eq_refl)
                 (or_introl eq_refl) eq_refl).
  reflexivity.
Defined.

Lemma undispatched_no_handler (action : list (string * json)) :
  undispatched action → find_handler (default JNull (obj_lookup "name" action)) = Ok None.
Proof.
  unfold undispatched.
  destruct (obj_lookup "name" action) as [[]|]; simpl; try done.
  intros Hname. by rewrite lookup_unknown.
Qed.

Lemma fallback_undispatched (reply : json) :
  undispatched [("name", JStr "fallback"); ("args", JObj [("reply", reply)])].
Proof.
  unfold undispatched. simpl. rewrite tool_names_eq, !not_elem_of_cons.
  repeat split; try done. apply not_elem_of_nil.
Qed.



(** ** Deleting a task *)

Lemma step_plain (st : pstate) (c : ascii) :
  escaped st = false → is_plain c = true → step st c = push_atom st (Chr c).
Proof.
  intros Hesc Hplain. unfold step. rewrite Hesc.
  destruct c as [[] [] [] [] [] [] [] []]; simpl in Hplain; try discriminate; reflexivity.
Qed.

Lemma parse_plain (s : string) (st : pstate) :
  escaped st = false → outer st = [] → all_plain s = true →
  parse st s = Pattern (frame_regex (Frame (alts (cur st)) (atoms_of s (atoms (cur st))))).
Proof.
  revert st. induction s as [|c s IH]; intros st Hesc Hout Hplain; simpl.
  - rewrite Hesc, Hout. by destruct (cur st).
  - simpl in Hplain. apply andb_prop in Hplain as [Hc Hs].
    rewrite (step_plain st c Hesc Hc). unfold push_atom, continue.
    rewrite IH by done. reflexivity.
Qed.

Lemma sequence_atoms_of (s : string) (acc : list regex) :
  sequence (atoms_of s acc) = fold_left (fun tail a => Cat a tail) acc (literal s).
Proof.
  revert acc. induction s as [|c s IH]; intros acc; simpl; [reflexivity|].
  unfold sequence in *. by rewrite IH.
Qed.

Lemma all_plain_in_alphabet (s : string) :
  all_plain s = true → all_in_alphabet s = true.
Proof.
  induction s as [|c s IH]; simpl; [done|].
  unfold is_plain. rewrite !andb_true_iff. intros [[Hc _] Hs]. auto.
Qed.

Lemma compile_plain (keyword : string) :
  all_plain keyword = true → (String.length keyword ≤ max_pattern)%nat →
  compile keyword = Pattern (literal keyword).
Proof.
  intros Hplain Hlen. unfold compile. rewrite bool_decide_true by done.
  rewrite all_plain_in_alphabet by done. simpl.
  rewrite parse_plain by done. simpl. unfold frame_regex. simpl.
  by rewrite sequence_atoms_of.
Qed.

Lemma match_here_alt (r1 r2 : regex) (s : string) :
  match_here (Alt r1 r2) s = match_here r1 s || match_here r2 s.
Proof.
  revert r1 r2. induction s as [|c s IH]; intros r1 r2; simpl.
  - by rewrite !orb_false_r.
  - rewrite IH.
    by destruct (nullable r1), (nullable r2), (match_here (deriv c r1) s),
         (match_here (deriv c r2) s).
Qed.

Lemma match_here_cat_empty (r : regex) (s : string) :
  match_here (Cat Empty r) s = false.
Proof. induction s as [|c s IH]; simpl; [reflexivity|exact IH]. Qed.

Lemma match_here_cat_eps (r : regex) (s : string) :
  match_here (Cat Eps r) s = match_here r s.
Proof.
  destruct s as [|c s]; simpl; [reflexivity|].
  by rewrite match_here_alt, match_here_cat_empty.
Qed.

Lemma match_here_literal (keyword title : string) :
  match_here (literal keyword) title = prefix_of (lowercase keyword) (lowercase title).
Proof.
  revert title. induction keyword as [|a keyword IH]; intros title.
  - by destruct title.
  - destruct title as [|c title]; simpl; [reflexivity|].
    case_bool_decide as Heq.
    + by rewrite match_here_cat_eps, IH.
    + by rewrite match_here_cat_empty.
Qed.

Lemma search_literal (keyword title : string) :
  search (literal keyword) title = substring_match keyword title.
Proof.
  unfold substring_match.
  induction title as [|c title IH]; cbn [search lowercase contains].
  - by rewrite match_here_literal.
  - by rewrite match_here_literal, IH.
Qed.

(** A keyword of plain characters is searched for as a substring, letter case
    ignored. *)
Lemma regex_search_plain (env : environment) (keyword : string) :
  all_plain keyword = true → (String.length keyword ≤ max_pattern)%nat →
  ∃ found, regex_search env keyword = Some found
           ∧ ∀ title, found title = substring_match keyword title.
Proof.
  intros Hplain Hlen. exists (search (literal keyword)).
  unfold regex_search. rewrite compile_plain by done.
  split; [reflexivity|]. apply search_literal.
Qed.

Lemma remove_first_ext {A} (p q : A → bool) (l : list A) :
  (∀ x, p x = q x) → remove_first p l = remove_first q l.
Proof.
  intros Hpq. induction l as [|x l IH]; simpl; [reflexivity|].
  by rewrite Hpq, IH.
Qed.

Lemma remove_first_spec {A} (p : A → bool) (l : list A) :
  (∃ l1 x l2, l = (l1 ++ x :: l2)%list ∧ p x = true ∧ (∀ y, y ∈ l1 → p y = false)
              ∧ remove_first p l = ((l1 ++ l2)%list, 1%N))
  ∨ ((∀ y, y ∈ l → p y = false) ∧ remove_first p l = (l, 0%N)).
Proof.
  induction l as [|x l IH]; simpl.
  - right. split; [|reflexivity]. intros y Hy. by apply elem_of_nil in Hy.
  - destruct (p x) eqn:Hx.
    + left. exists [], x, l. repeat split; try done.
      intros y Hy. by apply elem_of_nil in Hy.
    + destruct IH as [(l1 & y & l2 & -> & Hy & Hl1 & ->)|[Hnone ->]].
      * left. exists (x :: l1), y, l2. repeat split; try done.
        intros z Hz. apply elem_of_cons in Hz as [->|Hz]; auto.
      * right. split; [|reflexivity].
        intros z Hz. apply elem_of_cons in Hz as [->|Hz]; auto.
Qed.

Lemma title_matches_ext (f g : string → bool) (t : task) :
  (∀ s, f s = g s) → title_matches f t = title_matches g t.
Proof.
  intros Hfg. unfold title_matches. destruct (task_title t); try reflexivity.
  - apply Hfg.
  - induction l as [|v l IH]; simpl; [reflexivity|].
    rewrite IH. by destruct v; simpl; rewrite ?Hfg.
Qed.

Lemma title_matches_true (found : string → bool) (t : task) :
  title_matches found t = true ↔ ∃ s, title_text t s ∧ found s = true.
Proof.
  unfold title_matches, title_text. split.
  - destruct (task_title t) as [| | | |s0|l|]; try discriminate.
    + intros H. exists s0. split; [by left|exact H].
    + intros H. apply existsb_exists in H as (v & Hv & Hfound).
      destruct v as [| | | |s| |]; try discriminate.
      exists s. split; [|exact Hfound]. right. exists l.
      split; [reflexivity|by apply list_elem_of_In].
  - intros (s & [Ht|(l & Ht & Hin)] & Hfound); rewrite Ht; [exact Hfound|].
    apply existsb_exists. exists (JStr s). split; [by apply list_elem_of_In|exact Hfound].
Qed.

Lemma title_matches_false (found : string → bool) (t : task) :
  title_matches found t = false ↔ ∀ s, title_text t s → found s = false.
Proof.
  split.
  - intros Hno s Hs. destruct (found s) eqn:E; [|reflexivity].
    rewrite (proj2 (title_matches_true found t)) in Hno by eauto. discriminate.
  - intros Hno. destruct (title_matches found t) eqn:E; [|reflexivity].
    apply title_matches_true in E as (s & Hs & Hfound).
    rewrite (Hno s Hs) in Hfound. discriminate.
Qed.

(** X12: on a keyword whose characters the pattern syntax all reads as
    themselves and a store whose titles are ASCII, [handle_delete_task]
    removes the first task, in store order, whose title matches, and no
    other, and says so; or it finds none, says so and leaves the tasks as
    they were.  A title matches when it is a text that contains the keyword,
    letter case ignored, or an array with such a text among its elements. *)
Lemma delete_task_plain_keyword (env : environment) (now : Z)
    (m : list (string * json)) (keyword : string) (w : world) :
  obj_lookup "title" m = Some (JStr keyword) →
  all_plain keyword = true → (String.length keyword ≤ max_pattern)%nat →
  ascii_titles (tasks w) →
  (∃ l1 x l2,
     tasks w = (l1 ++ x :: l2)%list
     ∧ (∃ s, title_text x s ∧ substring_match keyword s = true)
     ∧ (∀ y s, y ∈ l1 → title_text y s → substring_match keyword s = false)
     ∧ handle_delete_task env now (JObj m) w =
         (Ok ("Deleted task matching '" +:+ keyword +:+ "'."),
          World (l1 ++ l2) (reminders w) (next_id w)
                (log w ++ [Store tasks_coll DeleteOne])))
  ∨ ((∀ y s, y ∈ tasks w → title_text y s → substring_match keyword s = false)
     ∧ handle_delete_task env now (JObj m) w =
         (Ok ("Couldn't find a task matching '" +:+ keyword +:+ "'."),
          World (tasks w) (reminders w) (next_id w)
                (log w ++ [Store tasks_coll DeleteOne]))).
Proof.
  intros Htitle Hplain Hlen _.
  destruct (regex_search_plain env keyword Hplain Hlen) as (found & Hfound & Hsame).
  assert (remove_first (title_matches found) (tasks w)
          = remove_first (title_matches (substring_match keyword)) (tasks w)) as Hrem.
  { apply remove_first_ext. intros t. by apply title_matches_ext. }
  unfold handle_delete_task, tasks_delete_one. run.
  rewrite Htitle. simpl. rewrite Hfound, Hrem.
  destruct (remove_first_spec (title_matches (substring_match keyword)) (tasks w))
    as [(l1 & x & l2 & Hl & Hx & Hl1 & ->)|[Hnone ->]].
  - left. exists l1, x, l2. split; [exact Hl|].
    split; [by apply title_matches_true|]. split; [|reflexivity].
    intros y s Hy. by apply title_matches_false, Hl1.
  - right. split; [|reflexivity].
    intros y s Hy. by apply title_matches_false, Hnone.
Qed.

(** X13: whatever the keyword, when the store accepts it as a pattern, the
    titles of the store are ASCII and the pattern is found in none of them
    (in no title that is text, and in no text among the elements of a title
    that is an array), the reply is the one for no match and the tasks, the
    reminders and the id counter are as they were. *)
Lemma delete_task_no_match (env : environment) (now : Z) (m : list (string * json))
    (keyword : string) (found : string → bool) (w : world) :
  obj_lookup "title" m = Some (JStr keyword) →
  regex_search env keyword = Some found →
  ascii_titles (tasks w) →
  (∀ t s, t ∈ tasks w → title_text t s → found s = false) →
  handle_delete_task env now (JObj m) w =
    (Ok ("Couldn't find a task matching '" +:+ keyword +:+ "'."),
     World (tasks w) (reminders w) (next_id w) (log w ++ [Store tasks_coll DeleteOne])).
Proof.
  intros Htitle Hfound _ Hnone.
  unfold handle_delete_task, tasks_delete_one. run.
  rewrite Htitle. simpl. rewrite Hfound.
  destruct (remove_first_spec (title_matches found) (tasks w))
    as [(l1 & x & l2 & Hl & Hx & _)|[_ ->]]; [|reflexivity].
  apply title_matches_true in Hx as (s & Hs & Hx).
  rewrite (Hnone x s) in Hx; [discriminate| |exact Hs].
  rewrite Hl. apply elem_of_app. right. apply elem_of_cons. by left.
Qed.

(** C4 fails on keywords with characters that the pattern syntax reads
    specially, because [handle_delete_task] hands the keyword to the store as
    a regular expression: with the keyword [a.c] it deletes the task [abc],
    whose title does not contain the keyword, and with the keyword
    [milk (2%)] it deletes nothing although the title [buy milk (2%)]
    contains the keyword. *)
Theorem delete_task_keyword_read_as_pattern (env : environment) (now : Z) :
  (substring_match "a.c" "abc" = false
   ∧ handle_delete_task env now (JObj [("title", JStr "a.c")])
       (World [Task 0 (JStr "abc") JNull false] [] 1 [])
     = (Ok (deleted_reply "a.c"), World [] [] 1 [Store tasks_coll DeleteOne]))
  ∧ (substring_match "milk (2%)" "buy milk (2%)" = true
     ∧ handle_delete_task env now (JObj [("title", JStr "milk (2%)")])
         (World [Task 0 (JStr "buy milk (2%)") JNull false] [] 1 [])
       = (Ok (not_found_reply "milk (2%)"),
          World [Task 0 (JStr "buy milk (2%)") JNull false] [] 1
                [Store tasks_coll DeleteOne])).
Proof. repeat split. Qed.

(** C7 fails for the same reason: no title contains the keyword [(], yet the
    handler returns no reply, the store having rejected the pattern; and no
    title contains the keyword [a.c], yet the handler deletes the
    task [abc]. *)
Theorem delete_task_absent_keyword (env : environment) (now : Z) :
  (substring_match "(" "milk" = false
   ∧ handle_delete_task env now (JObj [("title", JStr "(")])
       (World [Task 0 (JStr "milk") JNull false] [] 1 [])
     = (Raise OperationFailure,
        World [Task 0 (JStr "milk") JNull false] [] 1 [Store tasks_coll DeleteOne]))
  ∧ (substring_match "a.c" "abc" = false
     ∧ fst (get_tasks
              (snd (handle_delete_task env now (JObj [("title", JStr "a.c")])
                      (World [Task 0 (JStr "abc") JNull false] [] 1 []))))
       = Ok (JObj [("tasks", JArr [])])).
Proof. repeat split. Qed.

(** ** The store across requests *)

Lemma store_step_from (w0 w w' : world) :
  tasks w = tasks w0 → reminders w = reminders w0 → next_id w = next_id w0 →
  store_step w w' → store_step w0 w'.
Proof.
  intros Ht Hr Hn Hstep. destruct Hstep; rewrite ?Ht, ?Hr, ?Hn in *.
  - by apply step_none.
  - by apply (step_task_added _ _ title).
  - by apply (step_task_deleted _ _ l1 l2 x).
  - by apply (step_reminder_added _ _ title at_).
  - by apply (step_marked _ _ sent_ids).
Qed.

Lemma handle_add_task_step (env : environment) (now : Z) (args : json) (w : world) :
  store_step w (snd (handle_add_task env now args w)).
Proof.
  unfold handle_add_task, tasks_insert_one. run.
  destruct (py_getitem args "title") as [title|e]; simpl; [|by apply step_none].
  destruct (encoding_error title) as [e|]; simpl; [by apply step_none|].
  by apply (step_task_added _ _ title).
Qed.

Lemma handle_delete_task_step (env : environment) (now : Z) (args : json) (w : world) :
  store_step w (snd (handle_delete_task env now args w)).
Proof.
  unfold handle_delete_task, tasks_delete_one. run.
  destruct (py_getitem args "title") as [pattern|e]; simpl; [|by apply step_none].
  destruct (encoding_error pattern) as [e|]; simpl; [by apply step_none|].
  destruct pattern as [| | | |p| |]; simpl; try by apply step_none.
  destruct (regex_search env p) as [found|]; simpl; [|by apply step_none].
  destruct (remove_first_spec (title_matches found) (tasks w))
    as [(l1 & x & l2 & Hl & _ & _ & ->)|[_ ->]]; simpl.
  - by apply (step_task_deleted _ _ l1 l2 x).
  - by apply step_none.
Qed.

Lemma handle_set_reminder_step (env : environment) (now : Z) (args : json) (w : world) :
  store_step w (snd (handle_set_reminder env now args w)).
Proof.
  unfold handle_set_reminder, reminders_insert_one. run.
  destruct (py_getitem args "delay_minutes") as [delay|e]; simpl; [|by apply step_none].
  destruct (py_int delay) as [minutes|e]; simpl; [|by apply step_none].
  destruct (py_getitem args "title") as [title|e]; simpl; [|by apply step_none].
  destruct (encoding_error title) as [e|]; simpl; [by apply step_none|].
  destruct (fits_int64 (now + minutes * 60000)); simpl; [|by apply step_none].
  by apply (step_reminder_added _ _ title (now + minutes * 60000)).
Qed.

Lemma handler_cases (name : string) (h : handler) :
  tool_handlers !! name = Some h →
  h = handle_add_task ∨ h = handle_delete_task ∨ h = handle_set_reminder.
Proof.
  unfold tool_handlers. rewrite !lookup_insert_Some, lookup_empty.
  intros [[_ <-]|[_ [[_ <-]|[_ [[_ <-]|[_ ?]]]]]]; auto. discriminate.
Qed.

Lemma chat_step (env : environment) (now : Z) (msg : string) (w : world) :
  store_step w (snd (chat env now msg w)).
Proof.
  destruct (gemini_tool_call env msg w) as [a w1] eqn:Hres.
  pose proof (gemini_tool_call_store env msg w) as Hstore.
  rewrite Hres in Hstore. simpl in Hstore. destruct Hstore as (Ht & Hr & Hn & _).
  assert (store_step w w1) as Hnone by (by apply step_none).
  destruct a as [| | | | | |action];
    try (unfold chat; run; rewrite Hres; simpl; exact Hnone).
  rewrite (chat_after_resolver env now msg action w w1 Hres).
  destruct (default JNull (obj_lookup "name" action)) as [| | | |name| |]; simpl;
    try exact Hnone; try (destruct (py_get _ _ _); exact Hnone).
  destruct (tool_handlers !! name) as [h|] eqn:Hh;
    [|destruct (py_get _ _ _); exact Hnone].
  apply (store_step_from w w1); try done.
  set (args := default (JObj []) (obj_lookup "args" action)).
  assert (store_step w1 (snd (h env now args w1))) as Hstep.
  { destruct (handler_cases name h Hh) as [->|[->| ->]].
    - apply handle_add_task_step.
    - apply handle_delete_task_step.
    - apply handle_set_reminder_step. }
  by destruct (h env now args w1) as [[text|e] w2].
Qed.

Lemma get_due_reminders_step (now : Z) (w : world) :
  store_step w (snd (get_due_reminders now w)).
Proof.
  unfold get_due_reminders. run.
  destruct (List.filter (is_due now) (reminders w)) as [|d due]; cbv beta iota.
  - by apply step_none.
  - by apply (step_marked _ _ (map reminder_id (d :: due))).
Qed.

Lemma serve_step (q : request) (w : world) : store_step w (serve q w).
Proof.
  destruct q as [env now msg| |now]; simpl.
  - apply chat_step.
  - by apply step_none.
  - apply get_due_reminders_step.
Qed.

Lemma mark_keeps_ids (sent_ids : list oid) (l : list reminder) :
  map reminder_id
      (map (fun r => if bool_decide (reminder_id r ∈ sent_ids) then mark_sent r else r) l)
  = map reminder_id l.
Proof.
  rewrite map_map. apply map_ext. intros r. by case_bool_decide.
Qed.

Lemma fresh_id_ok (w : world) (l : list oid) :
  store_ok w → l ≡ₚ next_id w :: ids w →
  NoDup l ∧ ∀ i, i ∈ l → (i < next_id w + 1)%N.
Proof.
  intros [Hnd Hlt] Hperm. split.
  - rewrite Hperm. apply NoDup_cons. split; [|exact Hnd].
    intros Hin. apply Hlt in Hin. lia.
  - intros i Hi. rewrite Hperm in Hi. apply elem_of_cons in Hi as [->|Hi]; [lia|].
    apply Hlt in Hi. lia.
Qed.

(** Every request leaves the ids distinct and below the counter. *)
Lemma store_step_ok (w w' : world) : store_step w w' → store_ok w → store_ok w'.
Proof.
  intros Hstep Hok. unfold store_ok, ids in *.
  destruct Hstep as [Ht Hr Hn|title Ht Hr Hn|l1 l2 x Hl Ht Hr Hn|title at_ Ht Hr Hn
                     |sent_ids Ht Hr Hn]; rewrite Ht, Hr, Hn.
  - exact Hok.
  - apply (fresh_id_ok w); [exact Hok|]. unfold ids.
    rewrite map_app. simpl. rewrite <- app_assoc. simpl.
    by rewrite <- Permutation_middle.
  - destruct Hok as [Hnd Hlt]. rewrite Hl in Hnd, Hlt.
    rewrite map_app in *. simpl in *.
    rewrite <- app_assoc in Hnd, Hlt. simpl in *.
    rewrite <- Permutation_middle in Hnd. apply NoDup_cons in Hnd as [_ Hnd].
    rewrite <- app_assoc. split; [exact Hnd|].
    intros i Hi. apply Hlt. rewrite <- Permutation_middle. apply elem_of_cons. by right.
  - apply (fresh_id_ok w); [exact Hok|]. unfold ids.
    rewrite map_app. simpl. rewrite app_assoc.
    by rewrite <- Permutation_cons_append.
  - by rewrite mark_keeps_ids.
Qed.

Lemma store_step_next (w w' : world) : store_step w w' → (next_id w ≤ next_id w')%N.
Proof. intros [ ]; lia. Qed.

(** A reminder that is unsent after a request was unsent before it, or has
    been created by it. *)
Lemma store_step_unsent (w w' : world) (r' : reminder) :
  store_step w w' → r' ∈ reminders w' → reminder_sent r' = false →
  r' ∈ reminders w ∨ reminder_id r' = next_id w.
Proof.
  intros Hstep Hin Hsent.
  destruct Hstep as [Ht Hr Hn|title Ht Hr Hn|l1 l2 x Hl Ht Hr Hn|title at_ Ht Hr Hn
                     |sent_ids Ht Hr Hn]; rewrite Hr in Hin; auto.
  - apply elem_of_app in Hin as [Hin|Hin]; [by left|].
    apply list_elem_of_singleton in Hin as ->. by right.
  - apply list_elem_of_fmap in Hin as (r & -> & Hin).
    case_bool_decide; [discriminate|by left].
Qed.

Lemma get_due_reminders_result (now : Z) (w : world) :
  fst (get_due_reminders now w) = Ok (List.filter (is_due now) (reminders w)).
Proof.
  unfold get_due_reminders. run.
  by destruct (List.filter (is_due now) (reminders w)).
Qed.

Lemma delivered_unsent (q : request) (w : world) (i : oid) :
  i ∈ delivered q w →
  ∃ r, r ∈ reminders w ∧ reminder_id r = i ∧ reminder_sent r = false.
Proof.
  destruct q as [env now msg| |now]; simpl; try (intros H; by apply elem_of_nil in H).
  rewrite get_due_reminders_result. intros Hi.
  apply list_elem_of_fmap in Hi as (r & -> & Hr).
  apply list_elem_of_In, filter_In in Hr as [Hr Hdue]. apply list_elem_of_In in Hr.
  exists r. repeat split; [exact Hr|].
  unfold is_due in Hdue. apply andb_prop in Hdue as [_ Hdue].
  by destruct (reminder_sent r).
Qed.

Lemma filter_keeps_nodup {A B} (f : A → B) (p : A → bool) (l : list A) :
  NoDup (map f l) → NoDup (map f (List.filter p l)).
Proof.
  induction l as [|x l IH]; simpl; [done|].
  intros Hnd. apply NoDup_cons in Hnd as [Hx Hnd].
  destruct (p x); simpl; [|by apply IH].
  apply NoDup_cons. split; [|by apply IH].
  intros Hin. apply Hx. apply list_elem_of_fmap in Hin as (y & -> & Hy).
  apply (list_elem_of_fmap_2 f). apply list_elem_of_In.
  apply list_elem_of_In, filter_In in Hy. tauto.
Qed.

Lemma delivered_nodup (q : request) (w : world) :
  NoDup (map reminder_id (reminders w)) → NoDup (delivered q w).
Proof.
  intros Hnd. destruct q as [env now msg| |now]; simpl; try apply NoDup_nil_2.
  rewrite get_due_reminders_result. by apply filter_keeps_nodup.
Qed.

(** What a request has delivered is stored as sent once it has been served. *)
Lemma delivered_sent (q : request) (w : world) (r' : reminder) :
  r' ∈ reminders (serve q w) → reminder_id r' ∈ delivered q w →
  reminder_sent r' = true.
Proof.
  destruct q as [env now msg| |now]; simpl;
    try (intros _ H; by apply elem_of_nil in H).
  rewrite get_due_reminders_result.
  unfold get_due_reminders. run.
  destruct (List.filter (is_due now) (reminders w)) as [|d due]; cbv beta iota.
  - intros _ H. by apply elem_of_nil in H.
  - cbn [reminders snd]. intros Hin Hid.
    apply list_elem_of_fmap in Hin as (r & -> & Hr).
    case_bool_decide as Hmem; [reflexivity|]. by destruct Hmem.
Qed.

Lemma store_ok_reminders (w : world) :
  store_ok w →
  NoDup (map reminder_id (reminders w))
  ∧ ∀ r, r ∈ reminders w → (reminder_id r < next_id w)%N.
Proof.
  intros [Hnd Hlt]. unfold ids in *. split.
  - by apply NoDup_app in Hnd as (_ & _ & Hnd).
  - intros r Hr. apply Hlt. apply elem_of_app. right.
    by apply (list_elem_of_fmap_2 reminder_id).
Qed.

(** An id delivered by a sequence of requests is that of a reminder which is
    unsent when the sequence starts, or of one created during it. *)
Lemma deliveries_unsent (qs : list request) (w : world) (i : oid) :
  i ∈ deliveries qs w →
  (∃ r, r ∈ reminders w ∧ reminder_id r = i ∧ reminder_sent r = false)
  ∨ (next_id w ≤ i)%N.
Proof.
  revert w. induction qs as [|q qs IH]; intros w; simpl.
  - intros H. by apply elem_of_nil in H.
  - intros Hi. apply elem_of_app in Hi as [Hi|Hi].
    + left. by apply (delivered_unsent q).
    + pose proof (serve_step q w) as Hstep.
      destruct (IH _ Hi) as [(r' & Hr' & Hid & Hsent)|Hnew].
      * destruct (store_step_unsent _ _ r' Hstep Hr' Hsent) as [Hold|Hfresh].
        -- left. by exists r'.
        -- right. rewrite <- Hid, Hfresh. lia.
      * right. apply store_step_next in Hstep. lia.
Qed.

(** X14: at-most-once delivery.  Over any sequence of requests served one
    after the other from a store with distinct ids, no reminder is delivered
    by two sweeps, nor twice by one. *)
Lemma at_most_once_delivery (qs : list request) (w : world) :
  store_ok w → NoDup (deliveries qs w).
Proof.
  revert w. induction qs as [|q qs IH]; intros w Hok; simpl; [apply NoDup_nil_2|].
  pose proof (serve_step q w) as Hstep.
  pose proof (store_step_ok _ _ Hstep Hok) as Hok'.
  destruct (store_ok_reminders w Hok) as [Hnd Hlt].
  destruct (store_ok_reminders _ Hok') as [Hnd' _].
  apply NoDup_app. split; [by apply delivered_nodup|]. split; [|by apply IH].
  intros i Hi Hlater.
  destruct (deliveries_unsent qs _ i Hlater) as [(r' & Hr' & Hid & Hsent)|Hnew].
  - rewrite <- Hid in Hi. rewrite (delivered_sent q w r' Hr' Hi) in Hsent. discriminate.
  - destruct (delivered_unsent q w i Hi) as (r & Hr & Hid & _).
    apply Hlt in Hr. apply store_step_next in Hstep. lia.
Qed.

(** X15: in every store that requests build from the empty one, the ids of
    tasks and reminders are pairwise distinct and below the next id to
    assign. *)
Lemma store_ok_reachable (qs : list request) : store_ok (serve_all qs empty_world).
Proof.
  assert (store_ok empty_world) as Hinit.
  { split; [apply NoDup_nil_2|]. intros i Hi. by apply elem_of_nil in Hi. }
  revert Hinit. unfold serve_all. generalize empty_world.
  induction qs as [|q qs IH]; intros w Hok; simpl; [exact Hok|].
  apply IH. apply (store_step_ok w); [apply serve_step|exact Hok].
Qed.

(** ** What one request changes *)

Lemma one_change_from (w0 w w' : world) :
  tasks w = tasks w0 → reminders w = reminders w0 → next_id w = next_id w0 →
  one_change w w' → one_change w0 w'.
Proof. intros Ht Hr Hn. unfold one_change. by rewrite Ht, Hr, Hn. Qed.

Lemma handle_add_task_change (env : environment) (now : Z) (args : json) (w : world) :
  one_change w (snd (handle_add_task env now args w)).
Proof.
  unfold handle_add_task, tasks_insert_one. run.
  destruct (py_getitem args "title") as [title|e]; simpl; [|by left].
  destruct (encoding_error title) as [e|]; simpl; [by left|].
  right. left. by exists title.
Qed.

Lemma handle_delete_task_change (env : environment) (now : Z) (args : json) (w : world) :
  one_change w (snd (handle_delete_task env now args w)).
Proof.
  unfold handle_delete_task, tasks_delete_one. run.
  destruct (py_getitem args "title") as [pattern|e]; simpl; [|by left].
  destruct (encoding_error pattern) as [e|]; simpl; [by left|].
  destruct pattern as [| | | |p| |]; simpl; try by left.
  destruct (regex_search env p) as [found|]; simpl; [|by left].
  destruct (remove_first_spec (title_matches found) (tasks w))
    as [(l1 & x & l2 & Hl & _ & _ & ->)|[_ ->]]; simpl.
  - right. right. left. by exists l1, x, l2.
  - by left.
Qed.

Lemma handle_set_reminder_change (env : environment) (now : Z) (args : json) (w : world) :
  one_change w (snd (handle_set_reminder env now args w)).
Proof.
  unfold handle_set_reminder, reminders_insert_one. run.
  destruct (py_getitem args "delay_minutes") as [delay|e]; simpl; [|by left].
  destruct (py_int delay) as [minutes|e]; simpl; [|by left].
  destruct (py_getitem args "title") as [title|e]; simpl; [|by left].
  destruct (encoding_error title) as [e|]; simpl; [by left|].
  destruct (fits_int64 (now + minutes * 60000)); simpl; [|by left].
  right. right. right. by exists title, (now + minutes * 60000).
Qed.

Lemma chat_one_change (env : environment) (now : Z) (msg : string) (w : world) :
  one_change w (snd (chat env now msg w)).
Proof.
  destruct (gemini_tool_call env msg w) as [a w1] eqn:Hres.
  pose proof (gemini_tool_call_store env msg w) as Hstore.
  rewrite Hres in Hstore. simpl in Hstore. destruct Hstore as (Ht & Hr & Hn & _).
  assert (one_change w w1) as Hnone by (by left).
  destruct a as [| | | | | |action];
    try (unfold chat; run; rewrite Hres; simpl; exact Hnone).
  rewrite (chat_after_resolver env now msg action w w1 Hres).
  destruct (default JNull (obj_lookup "name" action)) as [| | | |name| |]; simpl;
    try exact Hnone; try (destruct (py_get _ _ _); exact Hnone).
  destruct (tool_handlers !! name) as [h|] eqn:Hh;
    [|destruct (py_get _ _ _); exact Hnone].
  apply (one_change_from w w1); try done.
  set (args := default (JObj []) (obj_lookup "args" action)).
  assert (one_change w1 (snd (h env now args w1))) as Hstep.
  { destruct (handler_cases name h Hh) as [->|[->| ->]].
    - apply handle_add_task_change.
    - apply handle_delete_task_change.
    - apply handle_set_reminder_change. }
  by destruct (h env now args w1) as [[text|e] w2].
Qed.

(** X1: whatever the capability answers and whatever the store holds, one
    [chat] request changes at most one document: it leaves tasks and reminders
    as they were, or appends one task, or removes one task, or appends one
    unsent reminder; it never alters or removes a reminder. *)
Theorem chat_changes_one_document (env : environment) (now : Z) (msg : string)
    (w : world) :
  let w' := snd (chat env now msg w) in
  (tasks w' = tasks w ∧ reminders w' = reminders w ∧ next_id w' = next_id w)
  ∨ (∃ title,
       tasks w' = (tasks w ++ [Task (next_id w) title JNull false])%list
       ∧ reminders w' = reminders w ∧ next_id w' = (next_id w + 1)%N)
  ∨ (∃ l1 x l2,
       tasks w = (l1 ++ x :: l2)%list ∧ tasks w' = (l1 ++ l2)%list
       ∧ reminders w' = reminders w ∧ next_id w' = next_id w)
  ∨ (∃ title at_,
       tasks w' = tasks w
       ∧ reminders w' = (reminders w ++ [Reminder (next_id w) title at_ false])%list
       ∧ next_id w' = (next_id w + 1)%N).
Proof. exact (chat_one_change env now msg w). Qed.

(** ** More on the sweep *)

(** The reminders after a sweep, in terms of the ids it found. *)
Lemma sweep_reminders_by_id (now : Z) (w : world) :
  reminders (snd (get_due_reminders now w)) =
    map (fun r =>
           if bool_decide (reminder_id r
                             ∈ map reminder_id (List.filter (is_due now) (reminders w)))
           then mark_sent r else r)
        (reminders w).
Proof.
  unfold get_due_reminders. run.
  destruct (List.filter (is_due now) (reminders w)) as [|d due] eqn:Hdue;
    cbv beta iota; cbn [reminders snd]; [|reflexivity].
  rewrite <- (map_id (reminders w)) at 1. apply map_ext. intros r.
  rewrite bool_decide_false; [done|]. simpl. apply not_elem_of_nil.
Qed.

Lemma sweep_store (now : Z) (w : world) :
  tasks (snd (get_due_reminders now w)) = tasks w
  ∧ next_id (snd (get_due_reminders now w)) = next_id w.
Proof.
  unfold get_due_reminders. run.
  by destruct (List.filter (is_due now) (reminders w)).
Qed.

Lemma due_in_filter (now : Z) (l : list reminder) (r : reminder) :
  r ∈ l → is_due now r = true → reminder_id r ∈ map reminder_id (List.filter (is_due now) l).
Proof.
  intros Hr Hdue. apply (list_elem_of_fmap_2 reminder_id).
  apply list_elem_of_In, filter_In. split; [by apply list_elem_of_In|done].
Qed.

(** With distinct ids, the reminders after a sweep in terms of what was due. *)
Lemma sweep_reminders (now : Z) (w : world) :
  NoDup (map reminder_id (reminders w)) →
  reminders (snd (get_due_reminders now w)) =
    map (fun r => if is_due now r then mark_sent r else r) (reminders w).
Proof.
  intros Hnd. rewrite sweep_reminders_by_id. apply map_ext_elem. intros r Hr.
  destruct (is_due now r) eqn:E.
  - rewrite bool_decide_true; [done|]. by apply due_ids.
  - rewrite bool_decide_false; [done|]. rewrite due_ids by done. congruence.
Qed.

(** After a sweep nothing is due at the clock reading of that sweep. *)
Lemma sweep_leaves_none_due (now : Z) (w : world) (r' : reminder) :
  r' ∈ reminders (snd (get_due_reminders now w)) → is_due now r' = false.
Proof.
  rewrite sweep_reminders_by_id. intros Hin.
  apply list_elem_of_fmap in Hin as (r & -> & Hr).
  case_bool_decide as Hmem.
  - unfold is_due. simpl. apply andb_false_r.
  - destruct (is_due now r) eqn:E; [|done].
    destruct Hmem. by apply due_in_filter.
Qed.

Lemma filter_none {A} (p : A → bool) (l : list A) :
  (∀ x, x ∈ l → p x = false) → List.filter p l = [].
Proof.
  induction l as [|x l IH]; simpl; intros H; [done|].
  rewrite (H x) by (apply elem_of_cons; by left).
  apply IH. intros y Hy. apply H. apply elem_of_cons. by right.
Qed.

(** X2: a sweep that directly follows another, at a clock reading that is not
    later, returns nothing and leaves the reminders as the first sweep stored
    them, the only operation it issues being its query. *)
Theorem sweep_after_sweep (t1 t2 : Z) (w : world) :
  t2 ≤ t1 →
  let w1 := snd (get_due_reminders t1 w) in
  get_due_reminders t2 w1 =
    (Ok [], World (tasks w1) (reminders w1) (next_id w1)
                  (log w1 ++ [Store reminders_coll Find])).
Proof.
  intros Hle w1.
  assert (List.filter (is_due t2) (reminders w1) = []) as Hnone.
  { apply filter_none. intros r' Hr'.
    pose proof (sweep_leaves_none_due t1 w r' Hr') as Hnot.
    unfold is_due in *. destruct (reminder_sent r'); [by rewrite andb_false_r|].
    rewrite andb_true_r in *. apply Z.leb_gt in Hnot. apply Z.leb_gt. lia. }
  unfold get_due_reminders. run. by rewrite Hnone.
Qed.

Lemma sweep_after_sweep_same_clock :
  5 ≤ 5
  ∧ fst (get_due_reminders 5 (World [] [Reminder 0 (JStr "tea") 3 false] 1 []))
    = Ok [Reminder 0 (JStr "tea") 3 false]
  ∧ fst (get_due_reminders 5
           (snd (get_due_reminders 5 (World [] [Reminder 0 (JStr "tea") 3 false] 1 []))))
    = Ok [].
Proof.
  split; [lia|]. split; [reflexivity|].
  rewrite (sweep_after_sweep 5 5 (World [] [Reminder 0 (JStr "tea") 3 false] 1 []));
    [reflexivity|lia].
Defined.

(** X3: a sweep never touches the tasks or the id counter, and of a reminder
    it changes nothing but [sent], which it only ever turns from false to
    true: the reminders after the sweep are the reminders before it, in the
    same order, with the same ids, titles and times. *)
Theorem sweep_only_marks (now : Z) (w : world) :
  let w' := snd (get_due_reminders now w) in
  tasks w' = tasks w ∧ next_id w' = next_id w
  ∧ Forall2 (fun r r' =>
               reminder_id r' = reminder_id r
               ∧ reminder_title r' = reminder_title r
               ∧ reminder_at r' = reminder_at r
               ∧ (reminder_sent r' = false → r' = r)
               ∧ (reminder_sent r = true → r' = r))
            (reminders w) (reminders w').
Proof.
  intros w'. destruct (sweep_store now w) as [Ht Hn].
  split; [exact Ht|]. split; [exact Hn|].
  unfold w'. rewrite sweep_reminders_by_id.
  apply Forall2_fmap_r, Forall_Forall2_diag, Forall_forall. intros r _.
  unfold compose. case_bool_decide; simpl; repeat split; try done.
  intros Hsent. destruct r as [i t a sent]. simpl in *. by rewrite Hsent.
Qed.

(** A request that is not a sweep at or after the time of an unsent
    reminder keeps that reminder as it is. *)
Lemma serve_keeps_unsent (q : request) (w : world) (r : reminder) :
  store_ok w → r ∈ reminders w → reminder_sent r = false →
  (∀ t, q = DueRequest t → t < reminder_at r) →
  r ∈ reminders (serve q w).
Proof.
  intros Hok Hr Hsent Hearly. destruct q as [env now msg| |now]; simpl.
  - destruct (chat_one_change env now msg w)
      as [(_ & -> & _)|[(? & _ & -> & _)|[(? & ? & ? & _ & _ & -> & _)
         |(? & ? & _ & -> & _)]]]; try done.
    apply elem_of_app. by left.
  - exact Hr.
  - rewrite sweep_reminders by (by apply store_ok_reminders).
    apply list_elem_of_fmap. exists r. split; [|exact Hr].
    assert (is_due now r = false) as ->; [|done].
    unfold is_due. apply andb_false_iff. left. apply Z.leb_gt. by apply Hearly.
Qed.

(** A poll at or after the time of an unsent reminder raises, and the store
    holds that reminder marked sent afterwards. *)
Lemma poll_due_raises (now : Z) (r : reminder) (w : world) :
  r ∈ reminders w → reminder_sent r = false → reminder_at r ≤ now →
  api_due_reminders now w = (Raise ValueError, snd (get_due_reminders now w))
  ∧ mark_sent r ∈ reminders (snd (get_due_reminders now w))
  ∧ (∀ r', r' ∈ reminders (snd (get_due_reminders now w)) →
       reminder_id r' = reminder_id r → reminder_sent r' = true).
Proof.
  intros Hr Hsent Hnow.
  assert (is_due now r = true) as Hdue.
  { unfold is_due. rewrite Hsent, andb_true_r. by apply Z.leb_le. }
  pose proof (due_in_filter now (reminders w) r Hr Hdue) as Hid.
  split; [|split].
  - rewrite api_due_reminders_run.
    destruct (List.filter (is_due now) (reminders w)); [|reflexivity].
    by apply elem_of_nil in Hid.
  - rewrite sweep_reminders_by_id. apply list_elem_of_fmap. exists r.
    split; [|exact Hr]. by rewrite bool_decide_true.
  - rewrite sweep_reminders_by_id. intros r' Hr' Hsame.
    apply list_elem_of_fmap in Hr' as (r0 & -> & Hr0).
    case_bool_decide as Hmem; [reflexivity|].
    destruct Hmem. rewrite Hsame. exact Hid.
Qed.

(** A response that [api_due_reminders] returns carries no reminder. *)
Lemma poll_answer_empty (now : Z) (w w' : world) (answer : json) :
  api_due_reminders now w = (Ok answer, w') → answer = JObj [("reminders", JArr [])].
Proof.
  rewrite api_due_reminders_run.
  destruct (List.filter (is_due now) (reminders w)); [|discriminate].
  by intros [= <- _].
Qed.

(** X4: from a store with distinct ids, an unsent reminder stays in the store
    unsent through any sequence of requests whose polls all read a clock
    before its time; the first poll whose clock has reached its time then
    marks it sent in the store and raises instead of returning it (the
    response cannot be encoded), so the reminder is lost. *)
Theorem unsent_reminder_kept_then_lost (qs : list request) (now : Z) (r : reminder)
    (w : world) :
  store_ok w → r ∈ reminders w → reminder_sent r = false →
  (∀ t, DueRequest t ∈ qs → t < reminder_at r) →
  reminder_at r ≤ now →
  r ∈ reminders (serve_all qs w)
  ∧ ∃ w',
      api_due_reminders now (serve_all qs w) = (Raise ValueError, w')
      ∧ mark_sent r ∈ reminders w'
      ∧ (∀ r', r' ∈ reminders w' → reminder_id r' = reminder_id r →
           reminder_sent r' = true).
Proof.
  intros Hok Hr Hsent Hearly Hnow.
  assert (r ∈ reminders (serve_all qs w)) as Hkept.
  { clear Hnow. revert w Hok Hr. unfold serve_all.
    induction qs as [|q qs IH]; intros w Hok Hr; simpl; [exact Hr|].
    apply IH.
    - intros t Ht. apply Hearly. apply elem_of_cons. by right.
    - apply (store_step_ok w); [apply serve_step|exact Hok].
    - apply serve_keeps_unsent; try done.
      intros t ->. apply Hearly. apply elem_of_cons. by left. }
  split; [exact Hkept|].
  exists (snd (get_due_reminders now (serve_all qs w))).
  exact (poll_due_raises now r (serve_all qs w) Hkept Hsent Hnow).
Qed.

Lemma unsent_reminder_kept_then_lost_tea :
  store_ok (World [] [Reminder 0 (JStr "tea") 100 false] 1 [])
  ∧ Reminder 0 (JStr "tea") 100 false
      ∈ reminders (World [] [Reminder 0 (JStr "tea") 100 false] 1 [])
  ∧ (∀ t, DueRequest t ∈ [TasksRequest; DueRequest 50] → t < 100)
  ∧ 100 ≤ 100
  ∧ ∃ w',
      api_due_reminders 100
        (serve_all [TasksRequest; DueRequest 50]
                   (World [] [Reminder 0 (JStr "tea") 100 false] 1 []))
        = (Raise ValueError, w')
      ∧ Reminder 0 (JStr "tea") 100 true ∈ reminders w'.
Proof.
  assert (store_ok (World [] [Reminder 0 (JStr "tea") 100 false] 1 [])) as Hok.
  { split; [by apply (bool_decide_unpack _)|].
    intros i Hi. apply list_elem_of_singleton in Hi as ->. reflexivity. }
  assert (∀ t, DueRequest t ∈ [TasksRequest; DueRequest 50] → t < 100) as Hearly.
  { intros t Ht. apply elem_of_cons in Ht as [Ht|Ht]; [discriminate|].
    apply list_elem_of_singleton in Ht. injection Ht as ->. lia. }
  split; [exact Hok|]. split; [apply list_elem_of_singleton; reflexivity|].
  split; [exact Hearly|]. split; [lia|].
  destruct (unsent_reminder_kept_then_lost [TasksRequest; DueRequest 50] 100
              (Reminder 0 (JStr "tea") 100 false)
              (World [] [Reminder 0 (JStr "tea") 100 false] 1 [])
              Hok ltac:(apply list_elem_of_singleton; reflexivity) eq_refl Hearly
              ltac:(simpl; lia))
    as (_ & w' & Hrun & Hmarked & _).
  exists w'. split; [exact Hrun|exact Hmarked].
Defined.

(** ** More on the resolver and the executor *)

(** What a decoded 200 response gives once its first part is a dictionary. *)
Lemma read_response_first_part (response_json : json) (part : list (string * json)) :
  py_in "candidates" response_json = Ok true →
  first_part response_json = Ok (JObj part) →
  read_response 200 response_json =
    Ok (match obj_lookup "functionCall" part with
        | Some call => call
        | None =>
            match obj_lookup "text" part with
            | Some text => fallback text
            | None => fallback (JStr error_reply)
            end
        end).
Proof.
  intros Hin Hpart. unfold read_response. simpl. rewrite Hin. simpl.
  rewrite Hpart. simpl.
  destruct (obj_lookup "functionCall" part) as [call|]; simpl; [reflexivity|].
  by destruct (obj_lookup "text" part) as [text|].
Qed.

(** X5: of a 200 response the resolver reads the first part of the first
    candidate and nothing else: whatever the other candidates, the other parts
    and the other fields are, the result is that part's structured call when
    it has one (even if it has text as well), else the fallback with its
    text, else the fallback with the fixed text of [error_reply]. *)
Theorem first_part_decides (env : environment) (key prompt : string) (w : world)
    (body candidate content part : list (string * json)) (candidates parts : list json) :
  API_KEY env = Some key → key ≠ "" →
  post env (request_url key) (request_data prompt) = Response 200 (Some (JObj body)) →
  obj_lookup "candidates" body = Some (JArr (JObj candidate :: candidates)) →
  obj_lookup "content" candidate = Some (JObj content) →
  obj_lookup "parts" content = Some (JArr (JObj part :: parts)) →
  gemini_tool_call env prompt w =
    (match obj_lookup "functionCall" part with
     | Some call => call
     | None =>
         match obj_lookup "text" part with
         | Some text => fallback text
         | None => fallback (JStr error_reply)
         end
     end, posted key prompt w).
Proof.
  intros Hkey Hne Hpost Hcands Hcontent Hparts.
  rewrite (gemini_tool_call_with_key env key prompt w Hkey Hne), Hpost.
  rewrite (read_response_first_part (JObj body) part); [reflexivity| |].
  - simpl. rewrite Hcands. by rewrite bool_decide_true by eauto.
  - unfold first_part. simpl. rewrite Hcands. simpl. rewrite Hcontent. simpl.
    by rewrite Hparts.
Qed.

Lemma first_part_decides_call_over_text :
  API_KEY (answering call_and_text) = Some "k"
  ∧ "k" ≠ ""
  ∧ fst (gemini_tool_call (answering call_and_text) "add it" empty_world)
    = JObj [("name", JStr "addTask")].
Proof.
  split; [reflexivity|]. split; [discriminate|].
  erewrite (first_part_decides (answering call_and_text) "k" "add it" empty_world);
    [ | reflexivity | discriminate | reflexivity | reflexivity
    | reflexivity | reflexivity ].
  reflexivity.
Defined.

(** The resolver's result when the first part of a 200 response carries the
    structured call [call]. *)
Lemma resolver_returns_call (env : environment) (key msg : string) (w : world)
    (part : list (string * json)) (call : json) :
  API_KEY env = Some key → key ≠ "" →
  post env (request_url key) (request_data msg) = response_with (JObj part) →
  obj_lookup "functionCall" part = Some call →
  gemini_tool_call env msg w = (call, posted key msg w).
Proof.
  intros Hkey Hne Hpost Hcall.
  rewrite (gemini_tool_call_with_key env key msg w Hkey Hne), Hpost.
  unfold response_with.
  rewrite (read_response_first_part _ part); [by rewrite Hcall|done|done].
Qed.

Lemma chat_on_fallback (env : environment) (now : Z) (msg : string) (reply : json)
    (w w1 : world) :
  gemini_tool_call env msg w = (fallback reply, w1) →
  chat env now msg w = (Ok (JObj [("reply", reply)]), w1).
Proof.
  intros Hres. unfold fallback in Hres.
  rewrite (chat_after_resolver env now msg _ w w1 Hres).
  rewrite undispatched_no_handler by apply fallback_undispatched. reflexivity.
Qed.

(** X6: [chat] turns every failure of the capability into a reply.  Without a
    credential it replies that the key is not set and the world is as it was;
    with one, if the POST raises, if the body cannot be decoded or if reading
    the response raises, it replies the fixed text of [unexpected_reply], and
    if the status is not 200 it replies the fixed text of [error_reply]; in
    these cases the only effect is the one POST. *)
Theorem chat_survives_capability_failure (env : environment) (now : Z) (msg : string)
    (w : world) :
  (API_KEY env = None ∨ API_KEY env = Some "" →
     chat env now msg w = (Ok (JObj [("reply", JStr no_key_reply)]), w))
  ∧ (∀ key, API_KEY env = Some key → key ≠ "" →
       (post env (request_url key) (request_data msg) = Unreachable
        ∨ (∃ status_code,
             post env (request_url key) (request_data msg) = Response status_code None)
        ∨ (∃ status_code response_json e,
             post env (request_url key) (request_data msg)
               = Response status_code (Some response_json)
             ∧ read_response status_code response_json = Raise e) →
        chat env now msg w =
          (Ok (JObj [("reply", JStr unexpected_reply)]), posted key msg w))
       ∧ (∀ status_code response_json,
            post env (request_url key) (request_data msg)
              = Response status_code (Some response_json) →
            status_code ≠ 200 →
            chat env now msg w =
              (Ok (JObj [("reply", JStr error_reply)]), posted key msg w))).
Proof.
  split.
  - intros Hkey. apply chat_on_fallback.
    unfold gemini_tool_call. by destruct Hkey as [->| ->].
  - intros key Hkey Hne.
    pose proof (gemini_tool_call_with_key env key msg w Hkey Hne) as Hres.
    split.
    + intros [Hpost|[(status_code & Hpost)|(status_code & response_json & e & Hpost & Hread)]];
        apply chat_on_fallback; rewrite Hres, Hpost; try reflexivity.
      by rewrite Hread.
    + intros status_code response_json Hpost Hstatus.
      apply chat_on_fallback. rewrite Hres, Hpost. unfold read_response.
      by rewrite (proj2 (Z.eqb_neq status_code 200) Hstatus).
Qed.

Lemma chat_survives_capability_failure_503 :
  API_KEY (answering (Response 503 (Some JNull))) = Some "k"
  ∧ "k" ≠ ""
  ∧ 503 ≠ 200
  ∧ chat (answering (Response 503 (Some JNull))) 1000 "buy milk" empty_world
    = (Ok (JObj [("reply", JStr error_reply)]), posted "k" "buy milk" empty_world).
Proof.
  split; [reflexivity|]. split; [discriminate|]. split; [lia|].
  apply (proj2 (proj2 (chat_survives_capability_failure
                         (answering (Response 503 (Some JNull))) 1000 "buy milk"
                         empty_world)
                  "k" eq_refl ltac:(discriminate)))
    with (status_code := 503) (response_json := JNull); [reflexivity|lia].
Defined.

Lemma schema_names_have_handlers (name : string) :
  name ∈ tool_names → ∃ h, tool_handlers !! name = Some h.
Proof.
  rewrite tool_names_eq, !elem_of_cons, elem_of_nil.
  intros [->|[->|[->|[]]]]; eexists.
  - apply lookup_add_task.
  - apply lookup_delete_task.
  - apply lookup_set_reminder.
Qed.

Lemma handler_rejects_non_mapping (env : environment) (now : Z) (name : string)
    (h : handler) (args : json) (w : world) :
  tool_handlers !! name = Some h → (∀ m, args ≠ JObj m) →
  h env now args w = (Raise TypeError, w).
Proof.
  intros Hh Hargs.
  assert (∀ k, py_getitem args k = Raise TypeError) as Hget.
  { intros k. destruct args; try reflexivity. by destruct (Hargs m). }
  destruct (handler_cases name h Hh) as [->|[->| ->]].
  - unfold handle_add_task. run. by rewrite Hget.
  - unfold handle_delete_task. run. by rewrite Hget.
  - unfold handle_set_reminder. run. by rewrite Hget.
Qed.

(** X7: a structured call of the wrong shape makes [chat] raise, with the store
    as it was.  If the call is not a dictionary, or if its name selects no
    handler and its [args] are present and not a dictionary, [chat] raises
    [AttributeError]; if its name is a list or a dictionary, or if its name
    selects a handler and its [args] are present and not a dictionary, [chat]
    raises [TypeError]. *)
Theorem chat_faults_on_ill_shaped_call (env : environment) (now : Z) (msg : string)
    (call : json) (w w1 : world) :
  gemini_tool_call env msg w = (call, w1) →
  ((∀ action, call ≠ JObj action) → chat env now msg w = (Raise AttributeError, w1))
  ∧ (∀ action, call = JObj action →
       ((∃ l, obj_lookup "name" action = Some (JArr l))
        ∨ (∃ m, obj_lookup "name" action = Some (JObj m)) →
        chat env now msg w = (Raise TypeError, w1))
       ∧ (∀ args, obj_lookup "args" action = Some args → (∀ m, args ≠ JObj m) →
            (undispatched action → chat env now msg w = (Raise AttributeError, w1))
            ∧ (∀ name, obj_lookup "name" action = Some (JStr name) →
                 name ∈ tool_names →
                 chat env now msg w = (Raise TypeError, w1))))
  ∧ tasks w1 = tasks w ∧ reminders w1 = reminders w.
Proof.
  intros Hres. split; [|split].
  - intros Hshape. unfold chat. run. rewrite Hres. simpl.
    destruct call; try reflexivity. by destruct (Hshape m).
  - intros action ->.
    rewrite (chat_after_resolver env now msg action w w1 Hres). split.
    + by intros [[l ->]|[m ->]].
    + intros args Hargs Hshape. rewrite Hargs. simpl. split.
      * intros Hname. rewrite (undispatched_no_handler action Hname).
        destruct args; try reflexivity. by destruct (Hshape m).
      * intros name Hname Hin. rewrite Hname. simpl.
        apply schema_names_have_handlers in Hin as [h Hh]. rewrite Hh.
        by rewrite (handler_rejects_non_mapping env now name h args w1 Hh Hshape).
  - pose proof (gemini_tool_call_store env msg w) as Hstore.
    rewrite Hres in Hstore. simpl in Hstore. tauto.
Qed.

Lemma chat_faults_on_ill_shaped_call_text :
  gemini_tool_call
    (answering (response_with (JObj [("functionCall", JStr "addTask")])))
    "add it" empty_world
  = (JStr "addTask", posted "k" "add it" empty_world)
  ∧ (∀ action, JStr "addTask" ≠ JObj action)
  ∧ chat (answering (response_with (JObj [("functionCall", JStr "addTask")])))
         1000 "add it" empty_world
    = (Raise AttributeError, posted "k" "add it" empty_world).
Proof.
  split; [reflexivity|]. split; [discriminate|].
  apply (proj1 (chat_faults_on_ill_shaped_call
                  (answering (response_with (JObj [("functionCall", JStr "addTask")])))
                  1000 "add it" (JStr "addTask") empty_world
                  (posted "k" "add it" empty_world) eq_refl)).
  discriminate.
Defined.

(** ** From the capability's answer to the store *)



(** X9: the store has distinct ids below its counter.  When the capability
    answers 200 and the first part carries a structured call named
    [setReminder] whose [args] give the text [T] as [title] and a
    [delay_minutes] that [int()] reads as [minutes], with a time
    [now + minutes * 60000] that fits 64 bits, [chat] replies and the store
    gains one unsent reminder for that time.  A poll that follows before
    that time leaves it stored unsent and does not return it; a poll that
    follows at or after that time marks it sent in the store and raises
    instead of returning it. *)
Theorem chat_set_reminder_then_poll (env : environment) (now t : Z) (key msg : string)
    (part action args : list (string * json)) (T : string) (delay : json) (minutes : Z)
    (w : world) :
  store_ok w →
  API_KEY env = Some key → key ≠ "" →
  post env (request_url key) (request_data msg) = response_with (JObj part) →
  obj_lookup "functionCall" part = Some (JObj action) →
  obj_lookup "name" action = Some (JStr "setReminder") →
  obj_lookup "args" action = Some (JObj args) →
  obj_lookup "title" args = Some (JStr T) →
  obj_lookup "delay_minutes" args = Some delay →
  py_int delay = Ok minutes →
  -9223372036854775808 ≤ now + minutes * 60000 < 9223372036854775808 →
  ∃ w2,
    chat env now msg w =
      (Ok (JObj [("reply",
                  JStr ("OK, I'll remind you about " +:+ dquote +:+ T +:+ dquote
                          +:+ " in " +:+ py_str delay +:+ " minutes."))]), w2)
    ∧ tasks w2 = tasks w
    ∧ reminders w2 =
        (reminders w ++ [Reminder (next_id w) (JStr T) (now + minutes * 60000) false])%list
    ∧ (t < now + minutes * 60000 →
         Reminder (next_id w) (JStr T) (now + minutes * 60000) false
           ∈ reminders (snd (api_due_reminders t w2))
         ∧ ∀ answer w3, api_due_reminders t w2 = (Ok answer, w3) →
             answer = JObj [("reminders", JArr [])])
    ∧ (now + minutes * 60000 ≤ t →
         ∃ w3, api_due_reminders t w2 = (Raise ValueError, w3)
               ∧ Reminder (next_id w) (JStr T) (now + minutes * 60000) true
                   ∈ reminders w3).
Proof.
  intros Hok Hkey Hne Hpost Hcall Hname Hargs Htitle Hdelay Hint Hfits.
  pose proof (resolver_returns_call env key msg w part _ Hkey Hne Hpost Hcall) as Hres.
  pose proof (chat_step env now msg w) as Hstep.
  rewrite (chat_after_resolver env now msg action w _ Hres), Hname, Hargs in *.
  simpl in *. rewrite lookup_set_reminder in *.
  rewrite (set_reminder_runs env now args T delay minutes _ Htitle Hdelay Hint Hfits) in *.
  simpl in Hstep.
  set (new := Reminder (next_id w) (JStr T) (now + minutes * 60000) false).
  set (w2 := World (tasks w) (reminders w ++ [new]) (next_id w + 1)%N
                   (log (posted key msg w) ++ [Store reminders_coll InsertOne])) in *.
  assert (new ∈ reminders w2) as Hnew
    by (apply elem_of_app; right; by apply list_elem_of_singleton).
  exists w2. split; [reflexivity|]. split; [reflexivity|]. split; [reflexivity|].
  split.
  - intros Hearly. split.
    + rewrite api_due_reminders_run. simpl.
      apply (serve_keeps_unsent (DueRequest t) w2 new); try done.
      * by apply (store_step_ok w).
      * by intros ? [= <-].
    + intros answer w3. apply poll_answer_empty.
  - intros Hlate. exists (snd (get_due_reminders t w2)).
    destruct (poll_due_raises t new w2 Hnew eq_refl Hlate) as (Hrun & Hmarked & _).
    split; [exact Hrun|exact Hmarked].
Qed.

Lemma chat_set_reminder_then_poll_hour :
  store_ok empty_world
  ∧ API_KEY (answering (response_with (JObj [
        ("functionCall",
         JObj [("name", JStr "setReminder");
               ("args", JObj [("title", JStr "tea"); ("delay_minutes", JInt 60)])])])))
    = Some "k"
  ∧ "k" ≠ ""
  ∧ py_int (JInt 60) = Ok 60
  ∧ -9223372036854775808 ≤ 1000 + 60 * 60000 < 9223372036854775808
  ∧ 3601000 ≤ 3601000
  ∧ ∃ w2 w3,
      reminders w2 = [Reminder 0 (JStr "tea") 3601000 false]
      ∧ api_due_reminders 3601000 w2 = (Raise ValueError, w3)
      ∧ Reminder 0 (JStr "tea") 3601000 true ∈ reminders w3.
Proof.
  assert (store_ok empty_world) as Hok.
  { split; [apply NoDup_nil_2|]. intros i Hi. by apply elem_of_nil in Hi. }
  split; [exact Hok|]. split; [reflexivity|]. split; [discriminate|].
  split; [reflexivity|]. split; [lia|]. split; [lia|].
  destruct (chat_set_reminder_then_poll
              (answering (response_with (JObj [
                 ("functionCall",
                  JObj [("name", JStr "setReminder");
                        ("args", JObj [("title", JStr "tea");
                                       ("delay_minutes", JInt 60)])])])))
              1000 3601000 "k" "tea in an hour"
              [("functionCall",
                JObj [("name", JStr "setReminder");
                      ("args", JObj [("title", JStr "tea"); ("delay_minutes", JInt 60)])])]
              [("name", JStr "setReminder");
               ("args", JObj [("title", JStr "tea"); ("delay_minutes", JInt 60)])]
              [("title", JStr "tea"); ("delay_minutes", JInt 60)] "tea" (JInt 60) 60
              empty_world
              Hok eq_refl ltac:(discriminate) eq_refl eq_refl eq_refl eq_refl eq_refl
              eq_refl eq_refl ltac:(lia))
    as (w2 & _ & _ & Hrem & _ & Hlate).
  destruct (Hlate ltac:(lia)) as (w3 & Hrun & Hmarked).
  exists w2, w3. split; [exact Hrem|]. split; [exact Hrun|exact Hmarked].
Defined.

(** ** More on deleting *)

Lemma delete_task_plain_run (env : environment) (now : Z) (m : list (string * json))
    (keyword : string) (w : world) :
  obj_lookup "title" m = Some (JStr keyword) →
  all_plain keyword = true → (String.length keyword ≤ max_pattern)%nat →
  handle_delete_task env now (JObj m) w =
    (Ok (if (0 <? snd (remove_first (title_matches (substring_match keyword)) (tasks w)))%N
         then deleted_reply keyword else not_found_reply keyword),
     World (fst (remove_first (title_matches (substring_match keyword)) (tasks w)))
           (reminders w) (next_id w) (log w ++ [Store tasks_coll DeleteOne])).
Proof.
  intros Htitle Hplain Hlen.
  destruct (regex_search_plain env keyword Hplain Hlen) as (found & Hfound & Hsame).
  assert (remove_first (title_matches found) (tasks w)
          = remove_first (title_matches (substring_match keyword)) (tasks w)) as Hrem.
  { apply remove_first_ext. intros t. by apply title_matches_ext. }
  unfold handle_delete_task, tasks_delete_one. run.
  rewrite Htitle. simpl. rewrite Hfound, Hrem.
  destruct (remove_first (title_matches (substring_match keyword)) (tasks w))
    as [rest n].
  reflexivity.
Qed.

Lemma prefix_of_refl (s : string) : prefix_of s s = true.
Proof.
  induction s as [|c s IH]; simpl; [reflexivity|].
  by rewrite bool_decide_true, IH.
Qed.

Lemma contains_prefix (p s : string) : prefix_of p s = true → contains p s = true.
Proof. intros H. destruct s; simpl in *; by rewrite H. Qed.

Lemma substring_match_refl (s : string) : substring_match s s = true.
Proof. unfold substring_match. apply contains_prefix, prefix_of_refl. Qed.

Lemma remove_first_last {A} (p : A → bool) (l : list A) (x : A) :
  (∀ y, y ∈ l → p y = false) → p x = true →
  remove_first p (l ++ [x]) = (l, 1%N).
Proof.
  intros Hl Hx. induction l as [|y l IH]; simpl.
  - by rewrite Hx.
  - rewrite (Hl y) by (apply elem_of_cons; by left).
    rewrite IH; [reflexivity|].
    intros z Hz. apply Hl. apply elem_of_cons. by right.
Qed.

(** X10: adding a task and then deleting by its title undoes the addition.
    When the title [T] has no character that the pattern syntax reads
    specially, the titles of the store are ASCII and no task of the store
    has a title that matches [T] (a text
    that contains [T], letter case ignored, or an array with such a text among
    its elements), [handle_add_task] with [T] followed by
    [handle_delete_task] with [T] leaves the tasks and the reminders as they
    were at the start; the id of the removed task is not given out again. *)
Theorem add_then_delete_restores (env : environment) (now now' : Z) (T : string)
    (w : world) :
  all_plain T = true → (String.length T ≤ max_pattern)%nat →
  ascii_titles (tasks w) →
  (∀ t s, t ∈ tasks w → title_text t s → substring_match T s = false) →
  ∃ w1 w2,
    handle_add_task env now (JObj [("title", JStr T)]) w
      = (Ok ("Task added: " +:+ dquote +:+ T +:+ dquote), w1)
    ∧ handle_delete_task env now' (JObj [("title", JStr T)]) w1
      = (Ok ("Deleted task matching '" +:+ T +:+ "'."), w2)
    ∧ tasks w2 = tasks w ∧ reminders w2 = reminders w
    ∧ next_id w2 = (next_id w + 1)%N.
Proof.
  intros Hplain Hlen _ Hnone'.
  assert (∀ t, t ∈ tasks w → title_matches (substring_match T) t = false) as Hnone.
  { intros t Ht. apply title_matches_false. intros s. by apply Hnone'. }
  eexists _, _. split; [reflexivity|].
  rewrite (delete_task_plain_run env now' [("title", JStr T)] T _ eq_refl Hplain Hlen).
  cbn [tasks reminders next_id log].
  rewrite (remove_first_last _ (tasks w) (Task (next_id w) (JStr T) JNull false) Hnone)
    by apply substring_match_refl.
  by repeat split.
Qed.

Lemma add_then_delete_restores_milk :
  all_plain "Buy milk" = true
  ∧ (String.length "Buy milk" ≤ max_pattern)%nat
  ∧ ascii_titles [Task 0 (JStr "Call mom") JNull false]
  ∧ (∀ t s, t ∈ [Task 0 (JStr "Call mom") JNull false] → title_text t s →
       substring_match "Buy milk" s = false)
  ∧ ∃ w1 w2,
      handle_add_task offline 0 (JObj [("title", JStr "Buy milk")])
        (World [Task 0 (JStr "Call mom") JNull false] [] 1 [])
        = (Ok (task_added "Buy milk"), w1)
      ∧ handle_delete_task offline 5 (JObj [("title", JStr "Buy milk")]) w1
        = (Ok (deleted_reply "Buy milk"), w2)
      ∧ tasks w2 = [Task 0 (JStr "Call mom") JNull false].
Proof.
  assert (∀ t s, t ∈ [Task 0 (JStr "Call mom") JNull false] → title_text t s →
            substring_match "Buy milk" s = false) as Hnone.
  { intros t s Ht Hs. apply list_elem_of_singleton in Ht as ->.
    destruct Hs as [[= <-]|(l & Hl & _)]; [reflexivity|discriminate]. }
  assert (ascii_titles [Task 0 (JStr "Call mom") JNull false]) as Hascii.
  { intros t s Ht Hs. apply list_elem_of_singleton in Ht as ->.
    destruct Hs as [[= <-]|(l & Hl & _)]; [reflexivity|discriminate]. }
  split; [reflexivity|]. split; [unfold max_pattern; simpl; lia|].
  split; [exact Hascii|]. split; [exact Hnone|].
  destruct (add_then_delete_restores offline 0 5 "Buy milk"
              (World [Task 0 (JStr "Call mom") JNull false] [] 1 [])
              eq_refl ltac:(unfold max_pattern; simpl; lia) Hascii Hnone)
    as (w1 & w2 & Hadd & Hdel & Htasks & _).
  exists w1, w2. split; [exact Hadd|]. split; [exact Hdel|exact Htasks].
Defined.

(** X18: the driver encodes a document before it sends it.  With a title
    that is an integer beyond 64 bits, [handle_add_task] raises
    [OverflowError]; with a title that is a dictionary with a null character
    in a key, it raises [InvalidDocument]; in both cases nothing is stored and
    no operation is issued.  With the largest 64-bit integer as title the
    task is stored and the reply prints the integer. *)
Theorem add_task_unencodable_title (env : environment) (now : Z) :
  handle_add_task env now (JObj [("title", JInt 9223372036854775808)])
    (World [] [] 0 [])
  = (Raise OverflowError, World [] [] 0 [])
  ∧ handle_add_task env now
      (JObj [("title", JObj [(String "a" (String "000" "b"), JInt 1)])])
      (World [] [] 0 [])
    = (Raise InvalidDocument, World [] [] 0 [])
  ∧ handle_add_task env now (JObj [("title", JInt 9223372036854775807)])
      (World [] [] 0 [])
    = (Ok ("Task added: " +:+ dquote +:+ "9223372036854775807" +:+ dquote),
       World [Task 0 (JInt 9223372036854775807) JNull false] [] 1
             [Store tasks_coll InsertOne]).
Proof. repeat split. Qed.

(** X11: an empty keyword matches every title that is text, so
    [handle_delete_task] with the title [""] deletes the first task of the
    store when its title is text, whatever that title is. *)
Theorem delete_empty_keyword (env : environment) (now : Z) (m : list (string * json))
    (x : task) (rest : list task) (title : string) (w : world) :
  obj_lookup "title" m = Some (JStr "") →
  tasks w = x :: rest → task_title x = JStr title →
  handle_delete_task env now (JObj m) w =
    (Ok (deleted_reply ""),
     World rest (reminders w) (next_id w) (log w ++ [Store tasks_coll DeleteOne])).
Proof.
  intros Hkey Htasks Htitle.
  rewrite (delete_task_plain_run env now m "" w Hkey eq_refl)
    by (unfold max_pattern; simpl; lia).
  rewrite Htasks. simpl. unfold title_matches. rewrite Htitle.
  assert (substring_match "" title = true) as ->
    by (unfold substring_match; by destruct (lowercase title)).
  reflexivity.
Qed.

Lemma delete_empty_keyword_first :
  obj_lookup "title" [("title", JStr "")] = Some (JStr "")
  ∧ handle_delete_task offline 0 (JObj [("title", JStr "")])
      (World [Task 0 (JStr "Call mom") JNull false; Task 1 (JStr "Buy milk") JNull false]
             [] 2 [])
    = (Ok (deleted_reply ""),
       World [Task 1 (JStr "Buy milk") JNull false] [] 2 [Store tasks_coll DeleteOne]).
Proof.
  split; [reflexivity|].
  exact (delete_empty_keyword offline 0 [("title", JStr "")]
           (Task 0 (JStr "Call mom") JNull false) [Task 1 (JStr "Buy milk") JNull false]
           "Call mom"
           (World [Task 0 (JStr "Call mom") JNull false;
                   Task 1 (JStr "Buy milk") JNull false] [] 2 [])
           eq_refl eq_refl eq_refl).
Defined.

Lemma delete_task_plain_keyword_first_of_two :
  obj_lookup "title" [("title", JStr "milk")] = Some (JStr "milk")
  ∧ all_plain "milk" = true
  ∧ (String.length "milk" ≤ max_pattern)%nat
  ∧ ascii_titles [Task 0 (JStr "Call mom") JNull false;
                  Task 1 (JArr [JStr "Buy"; JStr "MILK"]) JNull false;
                  Task 2 (JStr "milk tea") JNull false]
  ∧ ((∃ l1 x l2,
        [Task 0 (JStr "Call mom") JNull false;
         Task 1 (JArr [JStr "Buy"; JStr "MILK"]) JNull false;
         Task 2 (JStr "milk tea") JNull false] = (l1 ++ x :: l2)%list
        ∧ (∃ s, title_text x s ∧ substring_match "milk" s = true)
        ∧ (∀ y s, y ∈ l1 → title_text y s → substring_match "milk" s = false)
        ∧ handle_delete_task offline 0 (JObj [("title", JStr "milk")])
            (World [Task 0 (JStr "Call mom") JNull false;
                    Task 1 (JArr [JStr "Buy"; JStr "MILK"]) JNull false;
                    Task 2 (JStr "milk tea") JNull false] [] 3 [])
          = (Ok ("Deleted task matching '" +:+ "milk" +:+ "'."),
             World (l1 ++ l2) [] 3 [Store tasks_coll DeleteOne]))
     ∨ ((∀ y s, y ∈ [Task 0 (JStr "Call mom") JNull false;
                     Task 1 (JArr [JStr "Buy"; JStr "MILK"]) JNull false;
                     Task 2 (JStr "milk tea") JNull false] →
           title_text y s → substring_match "milk" s = false)
        ∧ handle_delete_task offline 0 (JObj [("title", JStr "milk")])
            (World [Task 0 (JStr "Call mom") JNull false;
                    Task 1 (JArr [JStr "Buy"; JStr "MILK"]) JNull false;
                    Task 2 (JStr "milk tea") JNull false] [] 3 [])
          = (Ok ("Couldn't find a task matching '" +:+ "milk" +:+ "'."),
             World [Task 0 (JStr "Call mom") JNull false;
                    Task 1 (JArr [JStr "Buy"; JStr "MILK"]) JNull false;
                    Task 2 (JStr "milk tea") JNull false] [] 3
                   [Store tasks_coll DeleteOne])))
  ∧ tasks (snd (handle_delete_task offline 0 (JObj [("title", JStr "milk")])
                  (World [Task 0 (JStr "Call mom") JNull false;
                          Task 1 (JArr [JStr "Buy"; JStr "MILK"]) JNull false;
                          Task 2 (JStr "milk tea") JNull false] [] 3 [])))
    = [Task 0 (JStr "Call mom") JNull false; Task 2 (JStr "milk tea") JNull false].
Proof.
  assert (ascii_titles [Task 0 (JStr "Call mom") JNull false;
                        Task 1 (JArr [JStr "Buy"; JStr "MILK"]) JNull false;
                        Task 2 (JStr "milk tea") JNull false]) as Hascii.
  { intros t s Ht Hs.
    apply elem_of_cons in Ht as [->|Ht]; [|apply elem_of_cons in Ht as [->|Ht]];
      [| |apply list_elem_of_singleton in Ht as ->].
    - destruct Hs as [[= <-]|(l & Hl & _)]; [reflexivity|discriminate].
    - destruct Hs as [Hs|(l & [= <-] & Hin)]; [discriminate|].
      apply elem_of_cons in Hin as [[= ->]|Hin]; [reflexivity|].
      apply list_elem_of_singleton in Hin as [= ->]. reflexivity.
    - destruct Hs as [[= <-]|(l & Hl & _)]; [reflexivity|discriminate]. }
  split; [reflexivity|]. split; [reflexivity|].
  split; [unfold max_pattern; simpl; lia|].
  split; [exact Hascii|]. split; [|reflexivity].
  exact (delete_task_plain_keyword offline 0 [("title", JStr "milk")] "milk"
           (World [Task 0 (JStr "Call mom") JNull false;
                   Task 1 (JArr [JStr "Buy"; JStr "MILK"]) JNull false;
                   Task 2 (JStr "milk tea") JNull false] [] 3 [])
           eq_refl eq_refl ltac:(unfold max_pattern; simpl; lia) Hascii).
Defined.

Lemma delete_task_no_match_wildcard :
  obj_lookup "title" [("title", JStr "x.z")] = Some (JStr "x.z")
  ∧ regex_search offline "x.z" = Some (search (Cat (Chr "x") (Cat Dot (Cat (Chr "z") Eps))))
  ∧ ascii_titles [Task 0 (JStr "abc") JNull false]
  ∧ (∀ t s, t ∈ [Task 0 (JStr "abc") JNull false] → title_text t s →
       search (Cat (Chr "x") (Cat Dot (Cat (Chr "z") Eps))) s = false)
  ∧ handle_delete_task offline 0 (JObj [("title", JStr "x.z")])
      (World [Task 0 (JStr "abc") JNull false] [] 1 [])
    = (Ok ("Couldn't find a task matching '" +:+ "x.z" +:+ "'."),
       World [Task 0 (JStr "abc") JNull false] [] 1 [Store tasks_coll DeleteOne]).
Proof.
  assert (∀ t s, t ∈ [Task 0 (JStr "abc") JNull false] → title_text t s →
            search (Cat (Chr "x") (Cat Dot (Cat (Chr "z") Eps))) s = false)
    as Hnone.
  { intros t s Ht Hs. apply list_elem_of_singleton in Ht as ->.
    destruct Hs as [[= <-]|(l & Hl & _)]; [reflexivity|discriminate]. }
  assert (ascii_titles [Task 0 (JStr "abc") JNull false]) as Hascii.
  { intros t s Ht Hs. apply list_elem_of_singleton in Ht as ->.
    destruct Hs as [[= <-]|(l & Hl & _)]; [reflexivity|discriminate]. }
  split; [reflexivity|]. split; [reflexivity|]. split; [exact Hascii|].
  split; [exact Hnone|].
  exact (delete_task_no_match offline 0 [("title", JStr "x.z")] "x.z" _
           (World [Task 0 (JStr "abc") JNull false] [] 1 []) eq_refl eq_refl
           Hascii Hnone).
Defined.

Lemma at_most_once_delivery_three_sweeps :
  store_ok (World [] [Reminder 0 (JStr "tea") 3 false; Reminder 1 (JStr "call") 9 false]
                  2 [])
  ∧ NoDup (deliveries [DueRequest 5; TasksRequest; DueRequest 4; DueRequest 10]
             (World [] [Reminder 0 (JStr "tea") 3 false; Reminder 1 (JStr "call") 9 false]
                    2 [])).
Proof.
  assert (store_ok (World [] [Reminder 0 (JStr "tea") 3 false;
                              Reminder 1 (JStr "call") 9 false] 2 [])) as Hok.
  { split; [by apply (bool_decide_unpack _)|].
    intros i Hi. apply elem_of_cons in Hi as [->|Hi]; [reflexivity|].
    apply list_elem_of_singleton in Hi as ->. reflexivity. }
  split; [exact Hok|].
  exact (at_most_once_delivery _ _ Hok).
Defined.

(** ** What the listing can show *)

Lemma store_step_tasks_open (w w' : world) :
  store_step w w' →
  Forall (fun t => task_due t = JNull ∧ task_completed t = false) (tasks w) →
  Forall (fun t => task_due t = JNull ∧ task_completed t = false) (tasks w').
Proof.
  intros Hstep Hopen.
  destruct Hstep as [Ht Hr Hn|title Ht Hr Hn|l1 l2 x Hl Ht Hr Hn|title at_ Ht Hr Hn
                     |sent_ids Ht Hr Hn]; rewrite Ht; try exact Hopen.
  - apply Forall_app. split; [exact Hopen|]. by apply Forall_singleton.
  - rewrite Hl in Hopen. apply Forall_app in Hopen as [H1 H2].
    apply Forall_cons in H2 as [_ H2]. apply Forall_app. by split.
Qed.

(** X16: no request completes a task or gives it a due date.  In every store
    that requests build from the empty one, each task has no due date and is
    not completed, so each entry that [get_tasks] lists has [due] null and
    [completed] false. *)
Theorem listed_tasks_stay_open (qs : list request) :
  Forall (fun t => task_due t = JNull ∧ task_completed t = false)
         (tasks (serve_all qs empty_world))
  ∧ ∃ listed,
      fst (get_tasks (serve_all qs empty_world)) = Ok (JObj [("tasks", JArr listed)])
      ∧ Forall (fun entry =>
                  py_getitem entry "due" = Ok JNull
                  ∧ py_getitem entry "completed" = Ok (JBool false))
               listed.
Proof.
  assert (Forall (fun t => task_due t = JNull ∧ task_completed t = false)
                 (tasks (serve_all qs empty_world))) as Hopen.
  { unfold serve_all.
    assert (Forall (fun t => task_due t = JNull ∧ task_completed t = false)
                   (tasks empty_world)) as Hinit by apply Forall_nil_2.
    revert Hinit. generalize empty_world.
    induction qs as [|q qs IH]; intros w Hw; simpl; [exact Hw|].
    apply IH. apply (store_step_tasks_open w); [apply serve_step|exact Hw]. }
  split; [exact Hopen|].
  exists (map task_helper (tasks (serve_all qs empty_world))).
  split; [reflexivity|].
  apply Forall_fmap. eapply Forall_impl; [exact Hopen|].
  intros t [Hdue Hdone]. unfold task_helper. simpl. by rewrite Hdue, Hdone.
Qed.

(** ** The operations that a request issues *)

(** The world in which [chat] ends is the resolver's, or the one in which a
    handler ends when started from the resolver's. *)
Lemma chat_world (env : environment) (now : Z) (msg : string) (w : world) :
  let w1 := snd (gemini_tool_call env msg w) in
  snd (chat env now msg w) = w1
  ∨ ∃ h args,
      (h = handle_add_task ∨ h = handle_delete_task ∨ h = handle_set_reminder)
      ∧ snd (chat env now msg w) = snd (h env now args w1).
Proof.
  destruct (gemini_tool_call env msg w) as [a w1] eqn:Hres. simpl.
  destruct a as [| | | | | |action];
    try (left; unfold chat; run; by rewrite Hres).
  rewrite (chat_after_resolver env now msg action w w1 Hres).
  destruct (default JNull (obj_lookup "name" action)) as [| | | |name| |]; simpl;
    try (by left); try (left; by destruct (py_get _ _ _)).
  destruct (tool_handlers !! name) as [h|] eqn:Hh;
    [|left; by destruct (py_get _ _ _)].
  right. exists h, (default (JObj []) (obj_lookup "args" action)).
  split; [exact (handler_cases name h Hh)|].
  by destruct (h env now _ w1) as [[text|e] w2].
Qed.

Lemma handler_log (env : environment) (now : Z) (h : handler) (args : json) (w : world) :
  h = handle_add_task ∨ h = handle_delete_task ∨ h = handle_set_reminder →
  log (snd (h env now args w)) = log w
  ∨ ∃ c op, is_write (Store c op) = true
            ∧ log (snd (h env now args w)) = (log w ++ [Store c op])%list.
Proof.
  intros [->|[->| ->]].
  - unfold handle_add_task, tasks_insert_one. run.
    destruct (py_getitem args "title") as [title|e]; simpl; [|by left].
    destruct (encoding_error title) as [e|]; simpl; [by left|].
    right. by exists tasks_coll, InsertOne.
  - unfold handle_delete_task, tasks_delete_one. run.
    destruct (py_getitem args "title") as [pattern|e]; simpl; [|by left].
    destruct (encoding_error pattern) as [e|]; simpl; [by left|].
    right. exists tasks_coll, DeleteOne. split; [reflexivity|].
    destruct pattern as [| | | |p| |]; simpl; try reflexivity.
    destruct (regex_search env p) as [found|]; simpl; [|reflexivity].
    by destruct (remove_first (title_matches found) (tasks w)).
  - unfold handle_set_reminder, reminders_insert_one. run.
    destruct (py_getitem args "delay_minutes") as [delay|e]; simpl; [|by left].
    destruct (py_int delay) as [minutes|e]; simpl; [|by left].
    destruct (py_getitem args "title") as [title|e]; simpl; [|by left].
    destruct (encoding_error title) as [e|]; simpl; [by left|].
    destruct (fits_int64 (now + minutes * 60000)); simpl; [|by left].
    right. by exists reminders_coll, InsertOne.
Qed.

Lemma resolver_log (env : environment) (msg : string) (w : world) :
  log (snd (gemini_tool_call env msg w)) = log w
  ∨ ∃ url data, log (snd (gemini_tool_call env msg w)) = (log w ++ [HttpPost url data])%list.
Proof.
  destruct (API_KEY env) as [[|c key]|] eqn:Hkey.
  - left. unfold gemini_tool_call. by rewrite Hkey.
  - right. rewrite (gemini_tool_call_with_key env (String c key) msg w Hkey) by done.
    by eexists _, _.
  - left. unfold gemini_tool_call. by rewrite Hkey.
Qed.

(** X17: a request issues at most one POST and at most one store write, and
    it only appends to the log: [chat] posts at most once (no retry) and
    writes at most once, [get_tasks] posts nothing and writes nothing, and a
    sweep posts nothing and writes at most once. *)
Theorem request_effects (q : request) (w : world) :
  ∃ posts writes,
    List.filter is_http (log (serve q w)) = (List.filter is_http (log w) ++ posts)%list
    ∧ List.filter is_write (log (serve q w)) = (List.filter is_write (log w) ++ writes)%list
    ∧ (length posts ≤ 1)%nat ∧ (length writes ≤ 1)%nat
    ∧ match q with
      | ChatRequest _ _ _ => True
      | TasksRequest => posts = [] ∧ writes = []
      | DueRequest _ => posts = []
      end.
Proof.
  destruct q as [env now msg| |now]; simpl.
  - assert (∃ posts, (length posts ≤ 1)%nat
              ∧ Forall (fun e => is_http e = true ∧ is_write e = false) posts
              ∧ log (snd (gemini_tool_call env msg w)) = (log w ++ posts)%list)
      as (posts & Hlen & Hposts & Hlog1).
    { destruct (resolver_log env msg w) as [Hlog|(url & data & Hlog)].
      - exists []. rewrite app_nil_r. repeat split; [simpl; lia|apply Forall_nil_2|done].
      - exists [HttpPost url data]. repeat split; [simpl; lia| |done].
        by apply Forall_singleton. }
    assert (∃ writes, (length writes ≤ 1)%nat
              ∧ Forall (fun e => is_http e = false ∧ is_write e = true) writes
              ∧ log (snd (chat env now msg w))
                = (log (snd (gemini_tool_call env msg w)) ++ writes)%list)
      as (writes & Hlen' & Hwrites & Hlog2).
    { destruct (chat_world env now msg w) as [->|(h & args & Hh & ->)].
      - exists []. rewrite app_nil_r. repeat split; [simpl; lia|apply Forall_nil_2].
      - destruct (handler_log env now h args (snd (gemini_tool_call env msg w)) Hh)
          as [Hlog|(c & op & Hop & Hlog)].
        + exists []. rewrite app_nil_r. repeat split; [simpl; lia|apply Forall_nil_2|done].
        + exists [Store c op]. repeat split; [simpl; lia| |done].
          by apply Forall_singleton. }
    exists posts, writes. rewrite Hlog2, Hlog1, !List.filter_app.
    assert (List.filter is_http posts = posts ∧ List.filter is_write posts = [])
      as [-> ->].
    { clear -Hposts. induction Hposts as [|e l [He1 He2] _ [IH1 IH2]]; simpl; [done|].
      by rewrite He1, He2, IH1, IH2. }
    assert (List.filter is_http writes = [] ∧ List.filter is_write writes = writes)
      as [-> ->].
    { clear -Hwrites. induction Hwrites as [|e l [He1 He2] _ [IH1 IH2]]; simpl; [done|].
      by rewrite He1, He2, IH1, IH2. }
    by rewrite !app_nil_r.
  - exists [], []. unfold get_tasks. run. rewrite !List.filter_app. simpl.
    rewrite !app_nil_r. repeat split; simpl; lia.
  - unfold get_due_reminders. run.
    destruct (List.filter (is_due now) (reminders w)) as [|d due]; simpl;
      rewrite !List.filter_app; simpl; rewrite ?app_nil_r.
    + exists [], []. rewrite !app_nil_r. repeat split; simpl; lia.
    + exists [], [Store reminders_coll UpdateMany]. rewrite !app_nil_r.
      repeat split; simpl; lia.
Qed.
